(** * pgbouncer_exporter: metric mapping and scrape engine

    A shallow embedding of the Go sources of the exporter
    ([exporter.go], the metric-map builder and converters, and the schema
    tables) together with the properties of the specification that can
    be settled on them.

    Conventions of the embedding:
    - [int64] is [Z]; the code performs no arithmetic on it, only
      conversions, so no wrap-around occurs;
    - [float64] is the kernel's binary64 type [float]; [float64(v)] on an
      integer is the correctly rounded conversion [float64_of_int64];
    - a Go [map] is a [gmap]; indexing a map with a missing key yields
      the zero value of the element type;
    - indexing a slice out of range panics; [log.Fatal] ends the process.
      Both are outcomes of a call, next to a normal return;
    - a send on the metric channel appends to the list of metrics sent;
    - log lines other than [log.Fatal] have no effect on the model. *)

From Stdlib Require Import ZArith Lia String List DecimalString.
From Stdlib Require Import PrimFloat SpecFloat FloatOps FloatAxioms.
From stdpp Require Import base option list gmap strings.

Local Open Scope string_scope.
Local Open Scope list_scope.

(** ** Go values *)

Abbreviation float64 := float (only parsing).

(** [float64(v)] for an [int64] or [int]: round to nearest, ties to even. *)
Definition float64_of_int64 (v : Z) : float64 :=
  SF2Prim (binary_normalize prec emax v 0 false).

(** The constant [1e-6] as a [float64]: the binary64 value nearest to it
    (the quotient [1 / 1000000], which IEEE division rounds correctly). *)
Definition float64_1e_6 : float64 := 0x1.0c6f7a0b5ed8dp-20.

(** [math.NaN()] *)
Definition NaN : float64 := nan.

(** The exact value of a finite float that holds an integer or a dyadic
    fraction, as numerator and power-of-two exponent [(m, e)] standing
    for [m * 2^e]; [None] for NaN and the infinities. *)
Definition float64_value (f : float64) : option (Z * Z) :=
  match Prim2SF f with
  | S754_zero _ => Some (0%Z, 0%Z)
  | S754_finite s m e => Some (if s then Z.neg m else Z.pos m, e)
  | S754_infinity _ | S754_nan => None
  end.

(** [time.Time], as far as the code looks at it. *)
Record Time := mkTime { sec : Z; nsec : Z }.

(** [t.Unix()] *)
Definition Unix (t : Time) : Z := sec t.

(** The dynamic type of an [interface{}] cell filled by [database/sql]. *)
Inductive value : Type :=
| VNil
| VInt64 (v : Z)
| VFloat64 (v : float64)
| VBool (v : bool)
| VBytes (v : list Byte.byte)
| VString (v : string)
| VTime (v : Time).

(** [strconv.FormatInt(v, 10)] *)
Definition FormatInt (v : Z) : string := NilZero.string_of_int (Z.to_int v).

(** [string(b)] for [b : []byte] *)
Definition string_of_bytes (b : list Byte.byte) : string := string_of_list_byte b.

(** ** Outcomes of a call *)

Inductive outcome (A : Type) : Type :=
| Returns (a : A)
| Panics
| Exits.
Arguments Returns {A} a.
Arguments Panics {A}.
Arguments Exits {A}.

#[global] Instance outcome_ret : MRet outcome := @Returns.
#[global] Instance outcome_bind : MBind outcome := fun A B f o =>
  match o with
  | Returns a => f a
  | Panics => Panics
  | Exits => Exits
  end.

(** [s[i]] on a slice. *)
Definition index {A} (s : list A) (i : nat) : outcome A :=
  match s !! i with
  | Some x => Returns x
  | None => Panics
  end.

(** [m[k]] on a [map[string]int]. *)
Definition mapIndex (m : gmap string nat) (k : string) : nat :=
  default 0 (m !! k).

(** [for i, x := range l { s = body(s, i, x) }], the index starting at [i]. *)
Fixpoint rangeLoop {A St} (body : St -> nat -> A -> outcome St)
    (i : nat) (l : list A) (s : St) : outcome St :=
  match l with
  | [] => Returns s
  | x :: l' => s' ← body s i x; rangeLoop body (S i) l' s'
  end.

(** ** Types of the exporter *)

Inductive columnUsage := LABEL | COUNTER | GAUGE | GAUGE_MS.

#[global] Instance columnUsage_eq_dec : EqDecision columnUsage.
Proof. solve_decision. Defined.

Record ColumnMapping := mkColumnMapping {
  usage : columnUsage;
  promMetricName : string;
  description : string
}.

(** [prometheus.ValueType], the two kinds the exporter uses. *)
Inductive ValueType := CounterValue | GaugeValue.

(** [prometheus.Desc], what [prometheus.NewDesc] is given. *)
Record Desc := NewDesc {
  fqName : string;
  help : string;
  variableLabels : list string
}.

Record MetricMap := mkMetricMap {
  vtype : ValueType;
  desc : Desc;
  multiplier : float64
}.

(** The two functions a [rowFunc] field holds. *)
Inductive RowConverter := RowFunc | KVFunc.

Record MetricMapFromNamespace := mkMetricMapFromNamespace {
  namespace : string;
  columnMappings : gmap string MetricMap;
  labels : list string;
  rowFunc : RowConverter
}.

Record rowResult := mkRowResult {
  ColumnNames : list string;
  ColumnIdx : gmap string nat;
  ColumnData : list value
}.

(** What travels on the metric channel: a constant metric built by
    [prometheus.MustNewConstMetric] from the arguments the converter
    passes, or one of the exporter's own four health metrics.  The
    client library's validation of those arguments is not part of the
    exporter's code and is not modelled. *)
Inductive Metric : Type :=
| MustNewConstMetric (d : Desc) (vt : ValueType) (v : float64) (labelValues : list string)
| DurationGauge
| UpGauge
| TotalScrapesCounter
| ErrorGauge.

Definition chan := list Metric.

(** The errors the code builds with [errors.New] and [fmt.Errorf], by
    the message they carry and the values formatted into it. *)
Inductive Error : Type :=
| ErrRunningQuery (ns : string) (cause : string)
| ErrColumnList (ns : string) (cause : string)
| ErrRetrievingRows (ns : string) (cause : string)
| ErrConsumeRows (cause : string)
| ErrParsingColumn (ns : string) (column : string) (cell : value)
| ErrKVNotEnoughColumns (ns : string) (data : list value)
| ErrKVKeyNotString (ns : string) (data : list value)
| ErrKVValue (ns : string) (key : string) (cell : value).

(** ** Value coercion and the row converters *)

Section Converters.

(** [strconv.ParseFloat(s, 64)], [None] when it returns an error. *)
Variable ParseFloat : string -> option float64.

Definition dbToFloat64 (t : value) : float64 * bool :=
  match t with
  | VInt64 v => (float64_of_int64 v, true)
  | VFloat64 v => (v, true)
  | VTime v => (float64_of_int64 (Unix v), true)
  | VBytes v =>
      let strV := string_of_bytes v in
      match ParseFloat strV with
      | None => (NaN, false)
      | Some result => (result, true)
      end
  | VString v =>
      match ParseFloat v with
      | None => (NaN, false)
      | Some result => (result, true)
      end
  | VNil => (NaN, true)
  | _ => (NaN, false)
  end.

(** Body of the first loop of [metricRowConverter]. *)
Definition labelStep (result : rowResult) (labelValues : list string)
    (name : string) : outcome (list string) :=
  val ← index (ColumnData result) (mapIndex (ColumnIdx result) name);
  Returns (match val with
           | VNil => labelValues ++ [""]
           | VString v => labelValues ++ [v]
           | VInt64 v => labelValues ++ [FormatInt v]
           | _ => labelValues
           end).

Definition collectLabels (m : MetricMapFromNamespace) (result : rowResult)
    : outcome (list string) :=
  rangeLoop (fun labelValues _ name => labelStep result labelValues name)
    0 (labels m) [].

(** Body of the second loop of [metricRowConverter]; the state is the
    slice of non-fatal errors and the channel. *)
Definition columnStep (m : MetricMapFromNamespace) (result : rowResult)
    (labelValues : list string) (st : list Error * chan) (idx : nat)
    (columnName : string) : outcome (list Error * chan) :=
  let '(nonFatalErrors, ch) := st in
  match columnMappings m !! columnName with
  | Some metricMapping =>
      cell ← index (ColumnData result) idx;
      let '(val, ok) := dbToFloat64 cell in
      if negb ok then
        Returns (nonFatalErrors ++ [ErrParsingColumn (namespace m) columnName cell], ch)
      else
        Returns (nonFatalErrors,
                 ch ++ [MustNewConstMetric (desc metricMapping) (vtype metricMapping)
                          (PrimFloat.mul val (multiplier metricMapping)) labelValues])
  | None => Returns st
  end.

(** A converter returns the channel after its sends, the non-fatal
    errors and the fatal error. *)
Definition converted : Type := chan * list Error * option Error.

Definition metricRowConverter (m : MetricMapFromNamespace) (result : rowResult)
    (ch : chan) : outcome converted :=
  labelValues ← collectLabels m result;
  st ← rangeLoop (columnStep m result labelValues) 0 (ColumnNames result) ([], ch);
  Returns (st.2, st.1, None).

Definition metricKVConverter (m : MetricMapFromNamespace) (result : rowResult)
    (ch : chan) : outcome converted :=
  if (length (ColumnData result) <? 2)%nat then
    Returns (ch, [], Some (ErrKVNotEnoughColumns (namespace m) (ColumnData result)))
  else
    k ← index (ColumnData result) 0;
    match k with
    | VString key =>
        match columnMappings m !! key with
        | Some metricMapping =>
            cell ← index (ColumnData result) 1;
            let '(val, ok) := dbToFloat64 cell in
            if negb ok then
              Returns (ch, [ErrKVValue (namespace m) key cell], None)
            else
              Returns (ch ++ [MustNewConstMetric (desc metricMapping)
                                (vtype metricMapping)
                                (PrimFloat.mul val (multiplier metricMapping)) []],
                       [], None)
        | None => Returns (ch, [], None)
        end
    | _ => Returns (ch, [], Some (ErrKVKeyNotString (namespace m) (ColumnData result)))
    end.

(** [m.rowFunc(m, &result, ch)] *)
Definition callRowFunc (m : MetricMapFromNamespace) (result : rowResult)
    (ch : chan) : outcome converted :=
  match rowFunc m with
  | RowFunc => metricRowConverter m result ch
  | KVFunc => metricKVConverter m result ch
  end.

End Converters.

(** ** The connection to the proxied service *)

(** A result that comes with a driver error, [(x, err)] in the source. *)
Inductive res (A : Type) : Type :=
| Ok (a : A)
| Err (cause : string).
Arguments Ok {A} a.
Arguments Err {A} cause.

(** [*sql.Rows]: the column list [rows.Columns()] reports, what each
    [rows.Next()] / [rows.Scan] pair delivers, and what [rows.Err()]
    reports once [rows.Next()] is false. *)
Record Rows := mkRows {
  Columns : res (list string);
  fetched : list (res (list value));
  RowsErr : option string
}.

(** [*sql.DB]: the queries issued so far, and the answer of the service
    to a query given the earlier ones. *)
Record DB := mkDB {
  issued : list string;
  respond : list string -> string -> res Rows
}.

(** [db.Query(query)] *)
Definition DBQuery (db : DB) (query : string) : DB * res Rows :=
  (mkDB (issued db ++ [query]) (respond db), respond db (issued db) query).

(** [rows.Scan(scanArgs...)] with [scanArgs[i] = &result.ColumnData[i]]:
    [database/sql] refuses a destination count that differs from the
    number of values of the row, and otherwise stores value [i] in
    [result.ColumnData[i]]. *)
Definition Scan (row : res (list value)) (result : rowResult) : res rowResult :=
  match row with
  | Err cause => Err cause
  | Ok vs =>
      if (length vs =? length (ColumnData result))%nat then
        Ok (mkRowResult (ColumnNames result) (ColumnIdx result) vs)
      else Err "sql: wrong number of destination arguments in Scan"
  end.

(** [for i, n := range names { idx[n] = i }], the index starting at [i]. *)
Fixpoint indexColumns (i : nat) (names : list string) (idx : gmap string nat)
    : gmap string nat :=
  match names with
  | [] => idx
  | n :: names' => indexColumns (S i) names' (<[n := i]> idx)
  end.

(** The [rowResult] that [Query] prepares before the first row. *)
Definition newRowResult (names : list string) : rowResult :=
  mkRowResult names (indexColumns 0 names ∅) (replicate (length names) VNil).

Section Scrape.

Variable ParseFloat : string -> option float64.

(** The [for rows.Next()] loop of [Query] and what follows it. *)
Fixpoint queryRows (m : MetricMapFromNamespace) (result : rowResult)
    (pending : list (res (list value))) (rowsErr : option string)
    (nonfatalErrors : list Error) (ch : chan) : outcome converted :=
  match pending with
  | [] =>
      match rowsErr with
      | Some err => Returns (ch, nonfatalErrors ++ [ErrConsumeRows err], None)
      | None => Returns (ch, nonfatalErrors, None)
      end
  | row :: pending' =>
      match Scan row result with
      | Err err => Returns (ch, [], Some (ErrRetrievingRows (namespace m) err))
      | Ok result' =>
          r ← callRowFunc ParseFloat m result' ch;
          let '(ch', n, e) := r in
          let nonfatalErrors := nonfatalErrors ++ n in
          match e with
          | Some e => Returns (ch', nonfatalErrors, Some e)
          | None => queryRows m result' pending' rowsErr nonfatalErrors ch'
          end
      end
  end.

Definition Query (m : MetricMapFromNamespace) (ch : chan) (db : DB)
    : outcome (DB * converted) :=
  let query := "SHOW " +:+ namespace m +:+ ";" in
  let '(db, rows) := DBQuery db query in
  match rows with
  | Err err => Returns (db, (ch, [], Some (ErrRunningQuery (namespace m) err)))
  | Ok rows =>
      match Columns rows with
      | Err err => Returns (db, (ch, [], Some (ErrColumnList (namespace m) err)))
      | Ok names =>
          r ← queryRows m (newRowResult names) (fetched rows) (RowsErr rows) [] ch;
          Returns (db, r)
      end
  end.

(** The exporter: its compiled metric maps, its connection and the
    values of its four health metrics.  The connection string, the
    namespace and the mutex play no part in a single poll. *)
Record Exporter := mkExporter {
  duration : float64;
  up : float64;
  error : float64;
  totalScrapes : float64;
  metricMap : list MetricMapFromNamespace;
  db : DB
}.

Definition setDuration (v : float64) (e : Exporter) : Exporter :=
  mkExporter v (up e) (error e) (totalScrapes e) (metricMap e) (db e).
Definition setUp (v : float64) (e : Exporter) : Exporter :=
  mkExporter (duration e) v (error e) (totalScrapes e) (metricMap e) (db e).
Definition setError (v : float64) (e : Exporter) : Exporter :=
  mkExporter (duration e) (up e) v (totalScrapes e) (metricMap e) (db e).
Definition setTotalScrapes (v : float64) (e : Exporter) : Exporter :=
  mkExporter (duration e) (up e) (error e) v (metricMap e) (db e).
Definition setDB (d : DB) (e : Exporter) : Exporter :=
  mkExporter (duration e) (up e) (error e) (totalScrapes e) (metricMap e) d.

(** The [for _, mapping := range e.metricMap] loop of [scrape]. *)
Fixpoint scrapeMappings (mappings : list MetricMapFromNamespace)
    (e : Exporter) (ch : chan) : outcome (Exporter * chan) :=
  match mappings with
  | [] => Returns (e, ch)
  | mapping :: mappings' =>
      r ← Query mapping ch (db e);
      let '(db', (ch', nonfatal, err)) := r in
      let e := setDB db' e in
      match err with
      | Some _ => Exits
      | None =>
          let e := setError (PrimFloat.add (error e)
                               (float64_of_int64 (Z.of_nat (length nonfatal)))) e in
          scrapeMappings mappings' e ch'
      end
  end.

(** [scrape]; [elapsed] is what [time.Since(begun).Seconds()] yields in
    the deferred call when the function returns. *)
Definition scrape (elapsed : float64) (e : Exporter) (ch : chan)
    : outcome (Exporter * chan) :=
  let e := setError 0 e in
  let e := setTotalScrapes (PrimFloat.add (totalScrapes e) 1) e in
  let '(db', rows) := DBQuery (db e) "SHOW STATS" in
  let e := setDB db' e in
  match rows with
  | Err _ =>
      let e := setError 1 e in
      let e := setUp 0 e in
      Returns (setDuration elapsed e, ch)
  | Ok _ =>
      let e := setUp 1 e in
      r ← scrapeMappings (metricMap e) e ch;
      Returns (setDuration elapsed r.1, r.2)
  end.

Definition Collect (elapsed : float64) (e : Exporter) (ch : chan)
    : outcome (Exporter * chan) :=
  r ← scrape elapsed e ch;
  Returns (r.1, r.2 ++ [DurationGauge; UpGauge; TotalScrapesCounter; ErrorGauge]).

End Scrape.

(** ** The schema tables *)

(** Namespaces whose status query returns [(key, value, ...)] rows. *)
Definition metricKVMaps : gmap string (gmap string ColumnMapping) :=
  list_to_map [
    ("config", list_to_map [
      ("listen_backlog", mkColumnMapping COUNTER ""
         "Maximum number of backlogged listen connections before further connection attempts are dropped");
      ("max_client_conn", mkColumnMapping GAUGE ""
         "Maximum number of client connections allowed");
      ("default_pool_size", mkColumnMapping GAUGE ""
         "The default for how many server connections to allow per user/database pair");
      ("min_pool_size", mkColumnMapping GAUGE ""
         "Mininum number of backends a pool will always retain.");
      ("reserve_pool_size", mkColumnMapping GAUGE ""
         "How many additional connections to allow to a pool once it's crossed it's maximum");
      ("reserve_pool_timeout", mkColumnMapping GAUGE "reserve_pool_timeout_seconds"
         "If a client has not been serviced in this many seconds, pgbouncer enables use of additional connections from reserve pool.");
      ("max_db_connections", mkColumnMapping GAUGE ""
         "Server level maximum connections enforced for a given db, irregardless of pool limits");
      ("max_user_connections", mkColumnMapping GAUGE ""
         "Maximum number of connections a user can open irregardless of pool limits");
      ("autodb_idle_timeout", mkColumnMapping GAUGE "autodb_idle_timeout_seconds"
         "Unused pools created via '*' are reclaimed after this interval");
      ("server_reset_query_always", mkColumnMapping GAUGE ""
         "Boolean indicating whether or not server_reset_query is enforced for all pooling modes, or just session");
      ("server_check_delay", mkColumnMapping GAUGE "server_check_delay_seconds"
         "How long to keep released connections available for immediate re-use, without running sanity-check queries on it. If 0 then the query is ran always.");
      ("query_timeout", mkColumnMapping GAUGE "query_timeout_seconds"
         "Maximum time that a query can run for before being cancelled.");
      ("query_wait_timeout", mkColumnMapping GAUGE "query_wait_timeout_seconds"
         "Maximum time that a query can wait to be executed before being cancelled.");
      ("client_idle_timeout", mkColumnMapping GAUGE "client_idle_timeout_seconds"
         "Client connections idling longer than this many seconds are closed");
      ("client_login_timeout", mkColumnMapping GAUGE "client_login_timeout_seconds"
         "Maximum time in seconds for a client to either login, or be disconnected");
      ("idle_transaction_timeout", mkColumnMapping GAUGE "idle_transaction_timeout_seconds"
         "If client has been in 'idle in transaction' state longer than this amount in seconds, it will be disconnected.");
      ("server_lifetime", mkColumnMapping GAUGE "server_lifetime_seconds"
         "The pooler will close an unused server connection that has been connected longer than this many seconds");
      ("server_idle_timeout", mkColumnMapping GAUGE "server_idle_timeout_seconds"
         "If a server connection has been idle more than this many seconds it will be dropped");
      ("server_connect_timeout", mkColumnMapping GAUGE "server_connect_timeout_seconds"
         "Maximum time allowed for connecting and logging into a backend server");
      ("server_login_retry", mkColumnMapping GAUGE "server_login_retry_seconds"
         "If connecting to a backend failed, this is the wait interval in seconds before retrying");
      ("server_round_robin", mkColumnMapping GAUGE ""
         "Boolean; if 1, pgbouncer uses backends in a round robin fashion.  If 0, it uses LIFO to minimize connectivity to backends");
      ("suspend_timeout", mkColumnMapping GAUGE "suspend_timeout_seconds"
         "Timeout for how long pgbouncer waits for buffer flushes before killing connections during pgbouncer admin SHUTDOWN and SUSPEND invocations.");
      ("disable_pqexec", mkColumnMapping COUNTER ""
         "Boolean; 1 means pgbouncer enforce Simple Query Protocol; 0 means it allows multiple queries in a single packet");
      ("dns_max_ttl", mkColumnMapping GAUGE ""
         "Irregardless of DNS TTL, this is the TTL that pgbouncer enforces for dns lookups it does for backends");
      ("dns_nxdomain_ttl", mkColumnMapping GAUGE ""
         "Irregardless of DNS TTL, this is the period enforced for negative DNS answers");
      ("dns_zone_check_period", mkColumnMapping GAUGE "dns_zone_check_period_seconds"
         "Period to check if zone serial has changed.");
      ("max_packet_size", mkColumnMapping GAUGE "max_packet_size_bytes"
         "Maximum packet size for postgresql packets that pgbouncer will relay to backends");
      ("pkt_buf", mkColumnMapping COUNTER "pkt_buf_bytes"
         "Internal buffer size for packets.  See docs");
      ("sbuf_loopcnt", mkColumnMapping GAUGE "sbuf_loopcnt"
         "How many results to process for a given connection's packet results before switching to others to ensure fairness.  See docs.");
      ("tcp_defer_accept", mkColumnMapping GAUGE ""
         "Configurable for TCP_DEFER_ACCEPT");
      ("tcp_socket_buffer", mkColumnMapping GAUGE "tcp_socket_buffer_bytes"
         "Configurable for tcp socket buffering; 0 is kernel managed");
      ("tcpkeepalive", mkColumnMapping GAUGE ""
         "Boolean; if 1, tcp keepalive is enabled w/ OS defaults.  If 0, disabled.");
      ("tcp_keepcnt", mkColumnMapping GAUGE ""
         "See TCP documentation for this field");
      ("tcp_keepidle", mkColumnMapping GAUGE ""
         "See TCP documentation for this field");
      ("tcp_keepintvl", mkColumnMapping GAUGE ""
         "See TCP documentation for this field");
      ("verbose", mkColumnMapping GAUGE ""
         "If log verbosity is increased.  Only relevant as a metric if log volume begins exceeding log consumption");
      ("stats_period", mkColumnMapping GAUGE "stats_period_seconds"
         "Periodicity in seconds of pgbouncer recalculating internal stats.");
      ("log_connections", mkColumnMapping GAUGE ""
         "Whether connections are logged or not.");
      ("log_disconnections", mkColumnMapping GAUGE ""
         "Whether connection disconnects are logged.");
      ("log_pooler_errors", mkColumnMapping GAUGE ""
         "Whether pooler errors are logged or not");
      ("application_name_add_host", mkColumnMapping GAUGE ""
         "Whether pgbouncer add the client host address and port to the application name setting set on connection start or not")
    ])
  ].

(** Namespaces whose status query returns one row per entity. *)
Definition metricRowMaps : gmap string (gmap string ColumnMapping) :=
  list_to_map [
    ("databases", list_to_map [
      ("name", mkColumnMapping LABEL ""
         "");
      ("host", mkColumnMapping LABEL ""
         "");
      ("port", mkColumnMapping LABEL ""
         "");
      ("database", mkColumnMapping LABEL ""
         "");
      ("force_user", mkColumnMapping LABEL ""
         "");
      ("pool_size", mkColumnMapping GAUGE ""
         "Maximum number of connection per pool for backend connections");
      ("reserve_pool", mkColumnMapping GAUGE "reserve_pool_size"
         "Number of extra connections by which the pool_size can be exceeded temporarily");
      ("pool_mode", mkColumnMapping LABEL ""
         "Nature of connection pooling");
      ("max_connections", mkColumnMapping GAUGE ""
         "Maximum number of client connections allowed");
      ("current_connections", mkColumnMapping GAUGE ""
         "Current number of client connections");
      ("paused", mkColumnMapping GAUGE ""
         "Boolean indicating whether a pgbouncer PAUSE is currently active for this database");
      ("disabled", mkColumnMapping GAUGE ""
         "Boolean indicating whether a pgbouncer DISABLE is currently active for this database")
    ]);
    ("lists", list_to_map [
      ("databases", mkColumnMapping GAUGE ""
         "Count of databases");
      ("users", mkColumnMapping GAUGE ""
         "Count of users");
      ("pools", mkColumnMapping GAUGE ""
         "Count of pools");
      ("free_clients", mkColumnMapping GAUGE ""
         "Count of free clients");
      ("used_clients", mkColumnMapping GAUGE ""
         "Count of used clients");
      ("login_clients", mkColumnMapping GAUGE ""
         "Count of clients in login state");
      ("free_servers", mkColumnMapping GAUGE ""
         "Count of free servers");
      ("used_servers", mkColumnMapping GAUGE ""
         "Count of used servers")
    ]);
    ("pools", list_to_map [
      ("database", mkColumnMapping LABEL ""
         "");
      ("user", mkColumnMapping LABEL ""
         "");
      ("cl_active", mkColumnMapping GAUGE ""
         "Client connections linked to server connection and able to process queries, shown as connection");
      ("cl_waiting", mkColumnMapping GAUGE ""
         "Client connections waiting on a server connection, shown as connection");
      ("sv_active", mkColumnMapping GAUGE ""
         "Server connections linked to a client connection, shown as connection");
      ("sv_idle", mkColumnMapping GAUGE ""
         "Server connections idle and ready for a client query, shown as connection");
      ("sv_used", mkColumnMapping GAUGE ""
         "Server connections idle more than server_check_delay, needing server_check_query, shown as connection");
      ("sv_tested", mkColumnMapping GAUGE ""
         "Server connections currently running either server_reset_query or server_check_query, shown as connection");
      ("sv_login", mkColumnMapping GAUGE ""
         "Server connections currently in the process of logging in, shown as connection");
      ("maxwait", mkColumnMapping GAUGE "maxwait_seconds"
         "Age of oldest unserved client connection, shown as second");
      ("pool_mode", mkColumnMapping LABEL ""
         "")
    ]);
    ("stats", list_to_map [
      ("database", mkColumnMapping LABEL ""
         "");
      ("avg_query_count", mkColumnMapping GAUGE "avg_queries_per_second"
         "Average queries per second in last stat period");
      ("avg_query", mkColumnMapping GAUGE_MS "avg_query_duration_microseconds"
         "The average query duration, shown as microsecond");
      ("avg_query_time", mkColumnMapping GAUGE_MS "avg_query_time_microseconds"
         "Average query time in microseconds");
      ("avg_recv", mkColumnMapping GAUGE "avg_data_recv_bytes_per_second"
         "Average received (from clients) bytes per second");
      ("avg_req", mkColumnMapping GAUGE ""
         "The average number of requests per second in last stat period, shown as request/second");
      ("avg_sent", mkColumnMapping GAUGE ""
         "Average sent (to clients) bytes per second");
      ("avg_wait_time", mkColumnMapping GAUGE_MS "avg_wait_time_microseconds"
         "Time spent by clients waiting for a server in microseconds (average per second)");
      ("avg_xact_count", mkColumnMapping GAUGE ""
         "Average transactions per second in last stat period");
      ("avg_xact_time", mkColumnMapping GAUGE_MS "avg_xact_time_microseconds"
         "Average transaction duration in microseconds");
      ("bytes_received_per_second", mkColumnMapping GAUGE "bytes_received_per_second_total"
         "The total network traffic received, shown as byte/second");
      ("bytes_sent_per_second", mkColumnMapping GAUGE "bytes_sent_per_second_total"
         "The total network traffic sent, shown as byte/second");
      ("total_query_count", mkColumnMapping GAUGE "query_count_total"
         "Total number of SQL queries pooled");
      ("total_query_time", mkColumnMapping GAUGE_MS "query_time_microseconds_total"
         "Total number of microseconds spent by pgbouncer when actively connected to PostgreSQL, executing queries");
      ("total_received", mkColumnMapping GAUGE "received_bytes_total"
         "Total volume in bytes of network traffic received by pgbouncer, shown as bytes");
      ("total_requests", mkColumnMapping GAUGE "requests_total"
         "Total number of SQL requests pooled by pgbouncer, shown as requests");
      ("total_sent", mkColumnMapping GAUGE "sent_bytes_total"
         "Total volume in bytes of network traffic sent by pgbouncer, shown as bytes");
      ("total_wait_time", mkColumnMapping GAUGE_MS "wait_time_microseconds_total"
         "Time spent by clients waiting for a server in microseconds");
      ("total_xact_count", mkColumnMapping GAUGE "xact_count_total"
         "Total number of SQL transactions pooled");
      ("total_xact_time", mkColumnMapping GAUGE_MS "xact_time_microseconds_total"
         "Total number of microseconds spent by pgbouncer when connected to PostgreSQL in a transaction, either idle in transaction or executing queries")
    ])
  ].

(** ** The metric-map builder *)

(** Body of the first loop of the [convert] closure. *)
Definition labelColumn (labels : list string) (kv : string * ColumnMapping)
    : list string :=
  let '(columnName, columnMapping) := kv in
  if decide (usage columnMapping = LABEL) then labels ++ [columnName] else labels.

(** Body of the second loop of the [convert] closure. *)
Definition convertColumn (metricNamespace namespace : string) (labels : list string)
    (thisMap : gmap string MetricMap) (kv : string * ColumnMapping)
    : gmap string MetricMap :=
  let '(columnName, columnMapping) := kv in
  let desc :=
    NewDesc (metricNamespace +:+ "_" +:+ namespace +:+ "_" +:+ columnName)
      (description columnMapping) labels in
  let desc :=
    if decide (promMetricName columnMapping = "") then desc
    else NewDesc (metricNamespace +:+ "_" +:+ namespace +:+ "_"
                    +:+ promMetricName columnMapping)
           (description columnMapping) labels in
  match usage columnMapping with
  | COUNTER => <[columnName := mkMetricMap CounterValue desc 1]> thisMap
  | GAUGE => <[columnName := mkMetricMap GaugeValue desc 1]> thisMap
  | GAUGE_MS => <[columnName := mkMetricMap GaugeValue desc float64_1e_6]> thisMap
  | LABEL => thisMap
  end.

Section Builder.

(** The order in which a [for k, v := range m] visits a Go map. *)
Variable goRange : forall V : Type, gmap string V -> list (string * V).

(** The [convert] closure of [makeMetricMaps]. *)
Definition convert (metricNamespace : string) (namespace : string)
    (mappings : gmap string ColumnMapping) (converter : RowConverter)
    : MetricMapFromNamespace :=
  let labels := foldl labelColumn [] (goRange _ mappings) in
  let thisMap :=
    foldl (convertColumn metricNamespace namespace labels) ∅ (goRange _ mappings) in
  mkMetricMapFromNamespace namespace thisMap labels converter.

Definition makeMetricMaps (metricNamespace : string) : list MetricMapFromNamespace :=
  let metricMap :=
    foldl (fun metricMap '(namespace, mappings) =>
             metricMap ++ [convert metricNamespace namespace mappings RowFunc])
      [] (goRange _ metricRowMaps) in
  foldl (fun metricMap '(namespace, mappings) =>
           metricMap ++ [convert metricNamespace namespace mappings KVFunc])
    metricMap (goRange _ metricKVMaps).

End Builder.

(** ** Describe *)

(** What [m.Desc()] yields for a metric on the channel: the descriptor
    a constant metric was built with, or the descriptor of one of the
    exporter's four health metrics. *)
Inductive Description : Type :=
| ConstDesc (d : Desc)
| DurationDesc
| UpDesc
| TotalScrapesDesc
| ErrorDesc.

(** [m.Desc()] *)
Definition MetricDesc (m : Metric) : Description :=
  match m with
  | MustNewConstMetric d _ _ _ => ConstDesc d
  | DurationGauge => DurationDesc
  | UpGauge => UpDesc
  | TotalScrapesCounter => TotalScrapesDesc
  | ErrorGauge => ErrorDesc
  end.

Section Describing.

Variable ParseFloat : string -> option float64.

(** [Describe] runs [Collect] on a channel of its own and forwards the
    descriptor of every metric that arrives there, in order. *)
Definition Describe (elapsed : float64) (e : Exporter) (ch : list Description)
    : outcome (Exporter * list Description) :=
  r ← Collect ParseFloat elapsed e [];
  Returns (r.1, ch ++ (MetricDesc <$> r.2)).

End Describing.

(** * Vocabulary of the properties *)

(** [float64_holds f v]: the float [f] is finite and its value is
    exactly the integer [v]. *)
Definition float64_holds (f : float64) (v : Z) : bool :=
  match float64_value f with
  | Some (m, e) =>
      if (0 <=? e)%Z then (m * 2 ^ e =? v)%Z else (m =? v * 2 ^ (- e))%Z
  | None => false
  end.

(** A stand-in for [strconv.ParseFloat] on the strings of decimal
    digits, enough to run the converters on concrete rows. *)
Fixpoint digitsValue (acc : Z) (s : string) : option Z :=
  match s with
  | EmptyString => Some acc
  | String c s' =>
      let n := Ascii.nat_of_ascii c in
      if (48 <=? n)%nat && (n <=? 57)%nat
      then digitsValue (10 * acc + Z.of_nat (n - 48)) s'
      else None
  end.

Definition parseDigits (s : string) : option float64 :=
  match s with
  | EmptyString => None
  | _ => float64_of_int64 <$> digitsValue 0 s
  end.

(** The text a label cell contributes, for the three kinds of cell the
    first loop of [metricRowConverter] handles. *)
Inductive labelOf : value -> string -> Prop :=
| labelOf_nil : labelOf VNil ""
| labelOf_string s : labelOf (VString s) s
| labelOf_int64 v : labelOf (VInt64 v) (FormatInt v).

(** What one result column contributes to the non-fatal errors and to
    the channel in [metricRowConverter], given the label values. *)
Inductive columnEffect (ParseFloat : string -> option float64)
    (m : MetricMapFromNamespace) (labelValues : list string)
    (columnName : string) (cell : value) : list Error -> list Metric -> Prop :=
| column_ignored :
    columnMappings m !! columnName = None ->
    columnEffect ParseFloat m labelValues columnName cell [] []
| column_failed metricMapping val :
    columnMappings m !! columnName = Some metricMapping ->
    dbToFloat64 ParseFloat cell = (val, false) ->
    columnEffect ParseFloat m labelValues columnName cell
      [ErrParsingColumn (namespace m) columnName cell] []
| column_emitted metricMapping val :
    columnMappings m !! columnName = Some metricMapping ->
    dbToFloat64 ParseFloat cell = (val, true) ->
    columnEffect ParseFloat m labelValues columnName cell []
      [MustNewConstMetric (desc metricMapping) (vtype metricMapping)
         (PrimFloat.mul val (multiplier metricMapping)) labelValues].

(** A [rowResult] as [Query] prepares it and [rows.Scan] fills it: the
    index is the one built from the column names, and there is one
    cell per column. *)
Definition scanned (result : rowResult) : Prop :=
  ColumnIdx result = indexColumns 0 (ColumnNames result) ∅ /\
  length (ColumnData result) = length (ColumnNames result).

(** The row scanned from the column names [names] and the cells [data]. *)
Definition scannedRow (names : list string) (data : list value) : rowResult :=
  mkRowResult names (indexColumns 0 names ∅) data.

(** The label rule in the words of the specification: a null cell gives
    the empty string, a numeric cell its base-10 text, any other cell
    the empty string.  The text of a floating-point cell is left open. *)
Inductive claimedLabelOf : value -> string -> Prop :=
| claimed_null : claimedLabelOf VNil ""
| claimed_int64 v : claimedLabelOf (VInt64 v) (FormatInt v)
| claimed_float64 v s : claimedLabelOf (VFloat64 v) s
| claimed_other c :
    c <> VNil -> (forall v, c <> VInt64 v) -> (forall v, c <> VFloat64 v) ->
    claimedLabelOf c "".

(** The label values of a row resolve as the specification words it:
    one value per label column, in the order of [labels], each by
    [claimedLabelOf] from the cell the label column is read from. *)
Definition labelsAsClaimed (m : MetricMapFromNamespace) (result : rowResult) : Prop :=
  exists labelValues,
    collectLabels m result = Returns labelValues /\
    Forall2 (fun name labelValue =>
               exists cell,
                 ColumnData result !! mapIndex (ColumnIdx result) name = Some cell /\
                 claimedLabelOf cell labelValue)
      (labels m) labelValues.

(** ** Sample data *)

(** A row namespace with the labels [name] and [pool_mode] and the
    gauge [cl_active]. *)
Definition samplePools : MetricMapFromNamespace :=
  mkMetricMapFromNamespace "pools"
    {[ "cl_active" :=
         mkMetricMap GaugeValue
           (NewDesc "pgbouncer_pools_cl_active" "Client connections" ["name"; "pool_mode"])
           1 ]}
    ["name"; "pool_mode"] RowFunc.

(** A key-value namespace with the key [max_client_conn]. *)
Definition sampleConfig : MetricMapFromNamespace :=
  mkMetricMapFromNamespace "config"
    {[ "max_client_conn" :=
         mkMetricMap GaugeValue
           (NewDesc "pgbouncer_config_max_client_conn"
              "Maximum number of client connections allowed" [])
           1 ]}
    [] KVFunc.

(** A row of the namespace [pools] with one column the map does not know. *)
Definition samplePoolsRow : rowResult :=
  scannedRow ["name"; "pool_mode"; "cl_active"; "extra"]
    [VString "db1"; VString "session"; VString "3"; VString "x"].


(** A row whose label column [name] holds a floating-point cell. *)
Definition sampleFloatLabelRow : rowResult :=
  scannedRow ["name"; "pool_mode"; "cl_active"]
    [VFloat64 1; VString "session"; VInt64 3].

(** A service that answers the probe, fails [SHOW pools;] and answers
    [SHOW config;] with [rows]. *)
Definition sampleRespond (rows : Rows) (earlier : list string) (query : string)
    : res Rows :=
  if decide (query = "SHOW STATS") then Ok (mkRows (Ok []) [] None)
  else if decide (query = "SHOW config;") then Ok rows
  else Err "connection reset".

(** Rows of [SHOW config;]: a value that does not parse, then a row
    that cannot be scanned. *)
Definition sampleScanFailure : Rows :=
  mkRows (Ok ["key"; "value"])
    [Ok [VString "max_client_conn"; VString "abc"]; Err "bad row";
     Ok [VString "max_client_conn"; VString "100"]]
    None.

(** Rows of [SHOW config;]: a value that does not parse, then a row
    whose key is not a string. *)
Definition sampleKeyFailure : Rows :=
  mkRows (Ok ["key"; "value"])
    [Ok [VString "max_client_conn"; VString "abc"]; Ok [VNil; VString "100"];
     Ok [VString "max_client_conn"; VString "100"]]
    None.

(** A service that does not answer the probe. *)
Definition sampleDown (earlier : list string) (query : string) : res Rows :=
  Err "connection refused".

Definition sampleExporter (respond : list string -> string -> res Rows) : Exporter :=
  mkExporter 0 0 0 0 [samplePools; sampleConfig] (mkDB [] respond).

(** The columns of the namespace [stats] in the row table. *)
Definition statsMappings : gmap string ColumnMapping :=
  default ∅ (metricRowMaps !! "stats").

(** The compiled map of [stats] under the prefix [pgbouncer], when a
    [range] visits a map in the order of [map_to_list]. *)
Definition sampleStats : MetricMapFromNamespace :=
  convert (fun V => map_to_list) "pgbouncer" "stats" statsMappings RowFunc.

(** A row of [stats] with an average query duration of 2500000
    microseconds. *)
Definition sampleStatsRow : rowResult :=
  scannedRow ["database"; "avg_query"] [VString "db1"; VInt64 2500000].

(** ** Vocabulary of the further properties *)

(** A metric built by [prometheus.MustNewConstMetric]. *)
Definition isConstMetric (x : Metric) : Prop :=
  match x with
  | MustNewConstMetric _ _ _ _ => True
  | _ => False
  end.

(** The status query of a namespace map, as [Query] formats it. *)
Definition statusQuery (m : MetricMapFromNamespace) : string :=
  "SHOW " +:+ namespace m +:+ ";".

(** The result columns that have a compiled entry in [m]. *)
Definition compiledColumns (m : MetricMapFromNamespace) (names : list string)
    : list string :=
  filter (fun name => is_Some (columnMappings m !! name)) names.

(** Rows of [SHOW pools;] and of [SHOW config;] that convert without
    any error. *)
Definition samplePoolsRows : Rows :=
  mkRows (Ok ["name"; "pool_mode"; "cl_active"; "extra"])
    [Ok [VString "db1"; VString "session"; VString "3"; VString "x"]] None.

Definition sampleConfigRows : Rows :=
  mkRows (Ok ["key"; "value"])
    [Ok [VString "max_client_conn"; VString "100"];
     Ok [VString "unknown_key"; VString "5"]]
    None.

(** A service that answers the probe and [SHOW pools;], and answers
    [SHOW config;] with [rows]. *)
Definition sampleUpWith (rows : Rows) (earlier : list string) (query : string)
    : res Rows :=
  if decide (query = "SHOW STATS") then Ok (mkRows (Ok []) [] None)
  else if decide (query = "SHOW pools;") then Ok samplePoolsRows
  else if decide (query = "SHOW config;") then Ok rows
  else Err "unknown command".

Definition sampleUp : list string -> string -> res Rows :=
  sampleUpWith sampleConfigRows.

(** The name under which a column is exported: the override, or the
    column name when there is none. *)
Definition exportedName (columnName : string) (columnMapping : ColumnMapping) : string :=
  if decide (promMetricName columnMapping = "") then columnName
  else promMetricName columnMapping.

(** The value columns of a schema table, each with its namespace, its
    column name and the part of its descriptor name after the prefix. *)
Definition schemaNames (table : gmap string (gmap string ColumnMapping))
    : list (string * string * string) :=
  '(ns, mappings) ← map_to_list table;
  '(columnName, columnMapping) ← map_to_list mappings;
  if decide (usage columnMapping = LABEL) then []
  else [(ns, columnName, ns +:+ "_" +:+ exportedName columnName columnMapping)].

(** [onto pre r]: the result [r] of a converter, with the metrics
    [pre] in front of the channel. *)
Definition onto (pre : chan) (r : converted) : converted :=
  (pre ++ r.1.1, r.1.2, r.2).

(** The answers of a service do not depend on the queries issued
    before. *)
Definition steady (respond : list string -> string -> res Rows) : Prop :=
  forall earlier earlier' query, respond earlier query = respond earlier' query.

(** Two states of the exporter with the same [up] and [error], the
    same metric maps and the same service. *)
Definition sameGauges (e1 e2 : Exporter) : Prop :=
  up e1 = up e2 /\ error e1 = error e2 /\
  metricMap e1 = metricMap e2 /\ respond (db e1) = respond (db e2).

(** * Properties *)

(** ** Outcomes and slices *)

Lemma bind_Returns {A B} (o : outcome A) (f : A -> outcome B) (b : B) :
  o ≫= f = Returns b -> exists a, o = Returns a /\ f a = Returns b.
Proof. destruct o as [a| |]; simpl; intros H; try discriminate; eauto. Qed.

Lemma index_Returns {A} (s : list A) (i : nat) (x : A) :
  index s i = Returns x <-> s !! i = Some x.
Proof.
  unfold index. destruct (s !! i); split; intros H; inversion H; reflexivity.
Qed.


(** ** Key-value converter (C5) *)

Section KVConverter.

Variable ParseFloat : string -> option float64.

Lemma metricKVConverter_short m result ch :
  length (ColumnData result) < 2 ->
  metricKVConverter ParseFloat m result ch =
    Returns (ch, [], Some (ErrKVNotEnoughColumns (namespace m) (ColumnData result))).
Proof.
  intros Hlen. unfold metricKVConverter.
  destruct (Nat.ltb_spec (length (ColumnData result)) 2); [reflexivity | lia].
Qed.

Lemma metricKVConverter_pair m result ch k cell rest :
  ColumnData result = k :: cell :: rest ->
  metricKVConverter ParseFloat m result ch =
    match k with
    | VString key =>
        match columnMappings m !! key with
        | Some metricMapping =>
            let '(val, ok) := dbToFloat64 ParseFloat cell in
            if negb ok then Returns (ch, [ErrKVValue (namespace m) key cell], None)
            else Returns (ch ++ [MustNewConstMetric (desc metricMapping)
                                   (vtype metricMapping)
                                   (PrimFloat.mul val (multiplier metricMapping)) []],
                          [], None)
        | None => Returns (ch, [], None)
        end
    | _ => Returns (ch, [], Some (ErrKVKeyNotString (namespace m) (ColumnData result)))
    end.
Proof.
  intros Hdata. unfold metricKVConverter. rewrite Hdata. simpl.
  destruct k; reflexivity.
Qed.

(** The two shapes of result: a fatal error with nothing sent, and no
    fatal error on a row that does not meet the condition [Hno]. *)
Ltac kv_fatal :=
  split; [split; [intros _ | intros _; discriminate]
         | intros _; split; reflexivity].

Ltac kv_nonfatal Hno :=
  split; [split; [intros H; exfalso; apply H; reflexivity
                 | intros H; exfalso; exact (Hno H)]
         | intros H; exfalso; apply H; reflexivity].

(** C5.  The key-value converter always returns.  It returns a fatal
    error exactly when the row has fewer than two columns or its first
    column is not a string, and then sends nothing.  With a string key
    that is not mapped it returns no error and sends nothing; with a
    mapped key, a failed coercion of the second column gives exactly
    one non-fatal error and no send, and a successful one gives exactly
    one send of the coerced value times the multiplier with no label
    values. *)
Theorem metricKVConverter_cases m result ch :
  (exists ch' errs fatal,
     metricKVConverter ParseFloat m result ch = Returns (ch', errs, fatal) /\
     (fatal <> None <->
        length (ColumnData result) < 2 \/
        forall key, ColumnData result !! 0 <> Some (VString key)) /\
     (fatal <> None -> ch' = ch /\ errs = [])) /\
  (forall key cell rest,
     ColumnData result = VString key :: cell :: rest ->
     match columnMappings m !! key with
     | None => metricKVConverter ParseFloat m result ch = Returns (ch, [], None)
     | Some metricMapping =>
         forall val ok, dbToFloat64 ParseFloat cell = (val, ok) ->
         metricKVConverter ParseFloat m result ch =
           if ok then
             Returns (ch ++ [MustNewConstMetric (desc metricMapping) (vtype metricMapping)
                               (PrimFloat.mul val (multiplier metricMapping)) []],
                      [], None)
           else Returns (ch, [ErrKVValue (namespace m) key cell], None)
     end).
Proof.
  split.
  - destruct (ColumnData result) as [|k [|cell rest]] eqn:Hdata.
    + eexists _, _, _. split; [apply metricKVConverter_short; rewrite Hdata; simpl; lia|].
      kv_fatal; left; simpl; lia.
    + eexists _, _, _. split; [apply metricKVConverter_short; rewrite Hdata; simpl; lia|].
      kv_fatal; left; simpl; lia.
    + rewrite (metricKVConverter_pair m result ch k cell rest Hdata).
      destruct k as [|v|v|v|v|key|v];
        try (eexists _, _, _; split; [reflexivity|];
             kv_fatal; right; intros key; simpl; discriminate).
      assert (Hnofatal : ~ (length (VString key :: cell :: rest) < 2 \/
                (forall key', (VString key :: cell :: rest) !! 0 <> Some (VString key')))).
      { intros [Hl | Hk]; [simpl in Hl; lia | exact (Hk key eq_refl)]. }
      destruct (columnMappings m !! key) as [metricMapping|];
        [destruct (dbToFloat64 ParseFloat cell) as [val [|]]; simpl|];
        eexists _, _, _; (split; [reflexivity|]); kv_nonfatal Hnofatal.
  - intros key cell rest Hdata.
    rewrite (metricKVConverter_pair m result ch _ cell rest Hdata).
    destruct (columnMappings m !! key) as [metricMapping|]; [|reflexivity].
    intros val ok Hco. rewrite Hco. destruct ok; reflexivity.
Qed.

End KVConverter.

(** ** Conversion of integers to [float64] *)

Lemma digits2_pos_size p : digits2_pos p = Pos.size p.
Proof. induction p; simpl; congruence. Qed.

Lemma digits2_pos_iter p k :
  digits2_pos (Pos.iter xO p k) = (digits2_pos p + k)%positive.
Proof.
  induction k as [|k IH] using Pos.peano_ind.
  - simpl. lia.
  - rewrite Pos.iter_succ. simpl. rewrite IH. lia.
Qed.

Lemma Zpos_iter p k : (Z.pos (Pos.iter xO p k) = Z.pos p * 2 ^ Z.pos k)%Z.
Proof.
  induction k as [|k IH] using Pos.peano_ind.
  - simpl. lia.
  - rewrite Pos.iter_succ, Pos2Z.inj_xO, IH, Pos2Z.inj_succ, Z.pow_succ_r by lia. lia.
Qed.

Lemma digits2_pos_bound p :
  (Z.pos p < 2 ^ 53)%Z -> (Z.pos (digits2_pos p) <= 53)%Z.
Proof.
  intros Hp. rewrite digits2_pos_size.
  destruct (Z_le_gt_dec (Z.pos (Pos.size p)) 53) as [|Hgt]; [assumption|exfalso].
  pose proof (Pos.size_le p) as Hle.
  assert (H54 : (2 ^ 54 <= 2 ^ Z.pos (Pos.size p))%Z) by (apply Z.pow_le_mono_r; lia).
  assert (H : (Z.pos (2 ^ Pos.size p) <= Z.pos p~0)%Z) by exact Hle.
  rewrite Pos2Z.inj_pow, Pos2Z.inj_xO in H.
  change (2 ^ 54)%Z with (2 * 2 ^ 53)%Z in H54. lia.
Qed.

Lemma shr_fexp_canonical mz ez :
  (Z.pos (digits2_pos mz) = 53)%Z -> (-1074 <= ez)%Z ->
  shr_fexp prec emax (Z.pos mz) ez loc_Exact =
    (Build_shr_record (Z.pos mz) false false, ez).
Proof.
  intros Hd He. unfold shr_fexp.
  assert (H0 : (fexp prec emax (Zdigits2 (Z.pos mz) + ez) - ez = 0)%Z).
  { unfold fexp, emin, prec, emax, Zdigits2. rewrite Hd. lia. }
  rewrite H0. reflexivity.
Qed.

Lemma binary_round_aux_canonical s mz ez :
  (Z.pos (digits2_pos mz) = 53)%Z -> (-1074 <= ez <= 971)%Z ->
  binary_round_aux prec emax s (Z.pos mz) ez loc_Exact = S754_finite s mz ez.
Proof.
  intros Hd He. unfold binary_round_aux.
  rewrite (shr_fexp_canonical mz ez Hd) by lia.
  cbn [shr_m loc_of_shr_record round_nearest_even].
  rewrite (shr_fexp_canonical mz ez Hd) by lia.
  cbn [shr_m]. unfold prec, emax.
  destruct (Z.leb_spec ez (1024 - 53)); [reflexivity|lia].
Qed.

(** Below [2^53] the rounding of an integer is the integer itself,
    shifted so that its mantissa has 53 digits. *)
Lemma binary_round_small s p :
  (Z.pos p < 2 ^ 53)%Z ->
  exists mz ez, binary_round prec emax s p 0 = S754_finite s mz ez /\
    (-52 <= ez <= 0)%Z /\ (Z.pos mz = Z.pos p * 2 ^ (- ez))%Z /\
    SpecFloat.valid_binary prec emax (S754_finite s mz ez) = true.
Proof.
  intros Hp. pose proof (digits2_pos_bound p Hp) as Hd.
  assert (Hd1 : (1 <= Z.pos (digits2_pos p))%Z) by lia.
  unfold binary_round, shl_align, fexp, emin, prec, emax.
  replace (Z.max (Z.pos (digits2_pos p) + 0 - 53) (3 - 1024 - 53))
    with (Z.pos (digits2_pos p) - 53)%Z by lia.
  destruct (Z.pos (digits2_pos p) - 53 - 0)%Z as [|k|k] eqn:Hk; try lia.
  - exists p, 0%Z. split; [|split; [lia|split; [simpl; lia|]]].
    + replace (Z.pos (digits2_pos p) - 53)%Z with 0%Z by lia.
      apply binary_round_aux_canonical; lia.
    + unfold SpecFloat.valid_binary, bounded, canonical_mantissa, fexp, emin, prec, emax.
      replace (Z.pos (digits2_pos p)) with 53%Z by lia. reflexivity.
  - exists (Pos.iter xO p k), (Z.pos (digits2_pos p) - 53)%Z.
    pose proof (Pos2Z.opp_pos k) as Hopp.
    assert (Hdk : (Z.pos (digits2_pos (Pos.iter xO p k)) = 53)%Z).
    { rewrite digits2_pos_iter. lia. }
    split; [|split; [lia|split]].
    + apply binary_round_aux_canonical; [exact Hdk | lia].
    + rewrite Zpos_iter. f_equal. f_equal. lia.
    + unfold SpecFloat.valid_binary, bounded, canonical_mantissa, fexp, emin, prec, emax.
      rewrite Hdk.
      apply andb_true_intro. split; [apply Z.eqb_eq; lia | apply Z.leb_le; lia].
Qed.

Lemma float64_of_int64_exact v :
  (Z.abs v <= 2 ^ 53)%Z -> float64_holds (float64_of_int64 v) v = true.
Proof.
  intros Hv.
  destruct (Z.eq_dec (Z.abs v) (2 ^ 53)%Z) as [Heq|Hne].
  { destruct (Z.abs_spec v) as [[_ H]|[_ H]]; rewrite H in Heq.
    - subst v. vm_compute. reflexivity.
    - assert (v = - 2 ^ 53)%Z by lia. subst v. vm_compute. reflexivity. }
  destruct v as [|p|p].
  - vm_compute. reflexivity.
  - destruct (binary_round_small false p) as (mz & ez & Hr & He & Hm & Hvalid).
    { simpl in Hv. lia. }
    unfold float64_holds, float64_value, float64_of_int64. simpl binary_normalize.
    rewrite Hr, (Prim2SF_SF2Prim _ Hvalid).
    destruct (Z.leb_spec 0 ez).
    + apply Z.eqb_eq. replace ez with 0%Z in * by lia. simpl in Hm. lia.
    + apply Z.eqb_eq. exact Hm.
  - destruct (binary_round_small true p) as (mz & ez & Hr & He & Hm & Hvalid).
    { simpl in Hv. lia. }
    unfold float64_holds, float64_value, float64_of_int64. simpl binary_normalize.
    rewrite Hr, (Prim2SF_SF2Prim _ Hvalid).
    destruct (Z.leb_spec 0 ez).
    + apply Z.eqb_eq. replace ez with 0%Z in * by lia. simpl in Hm. lia.
    + apply Z.eqb_eq. rewrite <- Pos2Z.opp_pos, Hm. lia.
Qed.

(** The float64 the schema uses for [1e-6] is the correctly rounded
    quotient of one by a million. *)
Lemma float64_1e_6_quotient :
  PrimFloat.div 1 (float64_of_int64 1000000) = float64_1e_6.
Proof. vm_compute. reflexivity. Qed.

(** ** Value coercion (C3) *)

(** C3, as stated, fails on large integers: the integer cell
    [2^53 + 1] is coerced to the float [2^53], which is not the cell's
    exact value. *)
Lemma dbToFloat64_int64_rounds :
  dbToFloat64 parseDigits (VInt64 9007199254740993) =
    (float64_of_int64 9007199254740992, true) /\
  float64_holds (dbToFloat64 parseDigits (VInt64 9007199254740993)).1
    9007199254740993 = false.
Proof. split; vm_compute; reflexivity. Qed.

(** C3, amended.  [dbToFloat64] returns: for an integer cell its
    value converted to [float64] (round to nearest), which is the exact
    value whenever its magnitude is at most [2^53], with [ok = true];
    for a floating-point cell the cell's value with [ok = true]; for a
    timestamp cell its seconds since the epoch converted to [float64]
    with [ok = true]; for a text or raw-byte cell what [ParseFloat]
    makes of the text, with [ok = true], and [(NaN, false)] when
    [ParseFloat] fails; [(NaN, true)] for a nil cell; [(NaN, false)] for
    any other cell. *)
Theorem dbToFloat64_cases (ParseFloat : string -> option float64) :
  (forall v, dbToFloat64 ParseFloat (VInt64 v) = (float64_of_int64 v, true)) /\
  (forall v, (Z.abs v <= 2 ^ 53)%Z -> float64_holds (float64_of_int64 v) v = true) /\
  (forall v, dbToFloat64 ParseFloat (VFloat64 v) = (v, true)) /\
  (forall t, dbToFloat64 ParseFloat (VTime t) = (float64_of_int64 (Unix t), true)) /\
  (forall s, dbToFloat64 ParseFloat (VString s) =
               match ParseFloat s with
               | Some x => (x, true)
               | None => (NaN, false)
               end) /\
  (forall b, dbToFloat64 ParseFloat (VBytes b) =
               match ParseFloat (string_of_bytes b) with
               | Some x => (x, true)
               | None => (NaN, false)
               end) /\
  dbToFloat64 ParseFloat VNil = (NaN, true) /\
  (forall t, match t with
             | VInt64 _ | VFloat64 _ | VTime _ | VString _ | VBytes _ | VNil => True
             | _ => dbToFloat64 ParseFloat t = (NaN, false)
             end).
Proof.
  split; [reflexivity|].
  split; [exact float64_of_int64_exact|].
  split; [reflexivity|].
  split; [reflexivity|].
  split; [intros s; simpl; destruct (ParseFloat s); reflexivity|].
  split; [intros b; simpl; destruct (ParseFloat (string_of_bytes b)); reflexivity|].
  split; [reflexivity|].
  intros t. destruct t; first [exact I | reflexivity].
Qed.

(** The text cell ["2500000"] and the integer 2500000. *)
Lemma dbToFloat64_cases_witness :
  dbToFloat64 parseDigits (VString "2500000") = (float64_of_int64 2500000, true) /\
  float64_holds (float64_of_int64 2500000) 2500000 = true.
Proof.
  destruct (dbToFloat64_cases parseDigits) as (_ & Hexact & _ & _ & Hs & _).
  split.
  - rewrite Hs. reflexivity.
  - apply Hexact. vm_compute. discriminate.
Defined.

(** ** The column index *)

Lemma indexColumns_notin names : forall i idx k,
  k ∉ names -> indexColumns i names idx !! k = idx !! k.
Proof.
  induction names as [|n names IH]; intros i idx k Hk; simpl; [reflexivity|].
  apply not_elem_of_cons in Hk as [Hne Hk].
  rewrite IH by exact Hk. apply lookup_insert_ne. congruence.
Qed.



(** ** The label loop of the row converter *)

Lemma labelStep_cell result labelValues name cell :
  ColumnData result !! mapIndex (ColumnIdx result) name = Some cell ->
  labelStep result labelValues name =
    Returns (match cell with
             | VNil => labelValues ++ [""]
             | VString v => labelValues ++ [v]
             | VInt64 v => labelValues ++ [FormatInt v]
             | _ => labelValues
             end).
Proof.
  intros Hcell. unfold labelStep.
  apply index_Returns in Hcell. rewrite Hcell. reflexivity.
Qed.


Lemma labelLoop_labelOf result names : forall i acc,
  (forall name, name ∈ names ->
     exists cell s,
       ColumnData result !! mapIndex (ColumnIdx result) name = Some cell /\
       labelOf cell s) ->
  exists labelValues,
    rangeLoop (fun labelValues _ name => labelStep result labelValues name)
      i names acc = Returns (acc ++ labelValues) /\
    Forall2 (fun name labelValue =>
               exists cell,
                 ColumnData result !! mapIndex (ColumnIdx result) name = Some cell /\
                 labelOf cell labelValue)
      names labelValues.
Proof.
  induction names as [|name names IH]; intros i acc Hcells; simpl.
  - exists []. rewrite app_nil_r. split; [reflexivity | constructor].
  - destruct (Hcells name) as (cell & s & Hcell & Hs); [left|].
    rewrite (labelStep_cell _ _ _ _ Hcell). simpl.
    destruct (IH (S i) (acc ++ [s])) as (rest & Hloop & Hall).
    { intros name' Hin. apply Hcells. right. exact Hin. }
    exists (s :: rest). split.
    + destruct Hs; simpl; rewrite Hloop, <- app_assoc; reflexivity.
    + constructor; [exists cell; split; assumption | exact Hall].
Qed.

(** ** The column loop of the row converter *)

Section RowConverter.

Variable ParseFloat : string -> option float64.

Lemma columnStep_effect m result labelValues errs ch idx columnName cell :
  ColumnData result !! idx = Some cell ->
  exists es os,
    columnStep ParseFloat m result labelValues (errs, ch) idx columnName =
      Returns (errs ++ es, ch ++ os) /\
    columnEffect ParseFloat m labelValues columnName cell es os.
Proof.
  intros Hcell. unfold columnStep.
  destruct (columnMappings m !! columnName) as [metricMapping|] eqn:Hmap.
  - apply index_Returns in Hcell. rewrite Hcell. simpl.
    destruct (dbToFloat64 ParseFloat cell) as [val [|]] eqn:Hco; simpl.
    + eexists [], [_]. rewrite app_nil_r. split; [reflexivity|].
      eapply column_emitted; eassumption.
    + eexists [_], []. rewrite app_nil_r. split; [reflexivity|].
      eapply column_failed; eassumption.
  - exists [], []. rewrite !app_nil_r. split; [reflexivity|].
    apply column_ignored. exact Hmap.
Qed.

Lemma columnLoop_effects m result labelValues names : forall data i errs ch,
  length data = length names ->
  (forall j cell, data !! j = Some cell -> ColumnData result !! (i + j) = Some cell) ->
  exists effs : list (list Error * list Metric),
    rangeLoop (columnStep ParseFloat m result labelValues) i names (errs, ch) =
      Returns (errs ++ concat effs.*1, ch ++ concat effs.*2) /\
    Forall2 (fun nc eff =>
               columnEffect ParseFloat m labelValues nc.1 nc.2 eff.1 eff.2)
      (zip names data) effs.
Proof.
  induction names as [|name names IH]; intros data i errs ch Hlen Hdata.
  - exists []. simpl. rewrite !app_nil_r. split; [reflexivity|].
    destruct data; constructor.
  - destruct data as [|cell data]; [discriminate|]. simpl in Hlen.
    destruct (columnStep_effect m result labelValues errs ch i name cell)
      as (es & os & Hstep & Heff).
    { rewrite <- (Nat.add_0_r i). apply Hdata. reflexivity. }
    destruct (IH data (S i) (errs ++ es) (ch ++ os)) as (effs & Hloop & Hall).
    { lia. }
    { intros j c Hj. replace (S i + j) with (i + S j) by lia. apply Hdata. exact Hj. }
    exists ((es, os) :: effs). split.
    + cbn [rangeLoop]. rewrite Hstep. cbn [mbind outcome_bind].
      refine (eq_trans Hloop _). simpl. rewrite <- !app_assoc. reflexivity.
    + constructor; [exact Heff | exact Hall].
Qed.


(** The row converter on a row with one cell per column, once the
    labels are resolved. *)
Lemma metricRowConverter_effects m result ch labelValues :
  length (ColumnData result) = length (ColumnNames result) ->
  collectLabels m result = Returns labelValues ->
  exists effs : list (list Error * list Metric),
    metricRowConverter ParseFloat m result ch =
      Returns (ch ++ concat effs.*2, concat effs.*1, None) /\
    Forall2 (fun nc eff =>
               columnEffect ParseFloat m labelValues nc.1 nc.2 eff.1 eff.2)
      (zip (ColumnNames result) (ColumnData result)) effs.
Proof.
  intros Hlen Hlabels.
  destruct (columnLoop_effects m result labelValues (ColumnNames result)
              (ColumnData result) 0 [] ch Hlen) as (effs & Hloop & Hall).
  { intros j cell Hj. exact Hj. }
  exists effs. split; [|exact Hall].
  unfold metricRowConverter. rewrite Hlabels. simpl. rewrite Hloop. reflexivity.
Qed.



End RowConverter.


(** The example of the specification: the row
    [{name: "db1", pool_mode: "session", cl_active: "3"}] gives one
    observation with labels [["db1"; "session"]] and value 3, and the
    column the map does not know gives nothing. *)
Example metricRowConverter_sample :
  metricRowConverter parseDigits samplePools samplePoolsRow [] =
    Returns ([MustNewConstMetric
                (NewDesc "pgbouncer_pools_cl_active" "Client connections"
                   ["name"; "pool_mode"])
                GaugeValue 3 ["db1"; "session"]], [], None).
Proof. vm_compute. reflexivity. Qed.

(** ** Label resolution (C2, C9) *)

(** C2, as stated, fails on a text label: the cell ["db1"] is neither
    null nor numeric, so the claim resolves it to the empty string,
    while the converter resolves it to ["db1"]. *)
Lemma labels_not_as_claimed : ~ labelsAsClaimed samplePools samplePoolsRow.
Proof.
  intros (labelValues & Hcollect & Hall).
  assert (Hlv : labelValues = ["db1"; "session"]).
  { vm_compute in Hcollect. inversion Hcollect. reflexivity. }
  subst labelValues.
  inversion Hall as [|name lv names lvs (cell & Hcell & Hclaimed) _]; subst.
  vm_compute in Hcell. inversion Hcell; subst cell.
  inversion Hclaimed.
Qed.

(** C2, amended.  When the cell each label column is read from is
    null, text or an integer, the label values resolve, one per label
    column and in the order of [labels]: a null cell gives the empty
    string, a text cell its text, an integer cell its base-10 text. *)
Theorem collectLabels_labelOf m result :
  (forall name, name ∈ labels m ->
     exists cell s,
       ColumnData result !! mapIndex (ColumnIdx result) name = Some cell /\
       labelOf cell s) ->
  exists labelValues,
    collectLabels m result = Returns labelValues /\
    length labelValues = length (labels m) /\
    Forall2 (fun name labelValue =>
               exists cell,
                 ColumnData result !! mapIndex (ColumnIdx result) name = Some cell /\
                 labelOf cell labelValue)
      (labels m) labelValues.
Proof.
  intros Hcells.
  destruct (labelLoop_labelOf result (labels m) 0 [] Hcells) as (lvs & Hloop & Hall).
  exists lvs. split; [exact Hloop|]. split; [|exact Hall].
  symmetry. eapply Forall2_length. exact Hall.
Qed.

(** The two labels of the sample row of [pools] are text cells. *)
Lemma collectLabels_labelOf_witness :
  exists labelValues,
    collectLabels samplePools samplePoolsRow = Returns labelValues /\
    length labelValues = length (labels samplePools) /\
    Forall2 (fun name labelValue =>
               exists cell,
                 ColumnData samplePoolsRow !! mapIndex (ColumnIdx samplePoolsRow) name
                   = Some cell /\
                 labelOf cell labelValue)
      (labels samplePools) labelValues.
Proof.
  apply (collectLabels_labelOf samplePools samplePoolsRow).
  intros name Hin.
  apply elem_of_cons in Hin as [->|Hin];
    [|apply elem_of_cons in Hin as [->|Hin]; [|inversion Hin]].
  - exists (VString "db1"), "db1". split; [reflexivity | constructor].
  - exists (VString "session"), "session". split; [reflexivity | constructor].
Defined.

(** A label cell of another kind adds no label value at all: the list
    of label values is then shorter than the list of label columns. *)
Lemma collectLabels_float_cell :
  collectLabels samplePools sampleFloatLabelRow = Returns ["session"].
Proof. vm_compute. reflexivity. Qed.



(** ** The query loop (C10) *)

Section Scraping.

Variable ParseFloat : string -> option float64.

Lemma Scan_Ok row result result' :
  Scan row result = Ok result' ->
  exists vs, row = Ok vs /\ length vs = length (ColumnData result) /\
    result' = mkRowResult (ColumnNames result) (ColumnIdx result) vs.
Proof.
  unfold Scan. destruct row as [vs|cause]; [|discriminate].
  destruct (Nat.eqb_spec (length vs) (length (ColumnData result))); [|discriminate].
  intros H. inversion H. eauto.
Qed.

Lemma Scan_values vs result :
  length vs = length (ColumnData result) ->
  Scan (Ok vs) result = Ok (mkRowResult (ColumnNames result) (ColumnIdx result) vs).
Proof.
  intros Hlen. unfold Scan. rewrite Hlen, Nat.eqb_refl. reflexivity.
Qed.

(** Rows that are scanned and converted without a fatal error leave
    the loop where it would be had it started after them, with their
    non-fatal errors accumulated. *)
Lemma queryRows_prefix m prefix : forall result acc ch ch' errs,
  queryRows ParseFloat m result prefix None acc ch = Returns (ch', errs, None) ->
  exists result',
    ColumnNames result' = ColumnNames result /\
    ColumnIdx result' = ColumnIdx result /\
    length (ColumnData result') = length (ColumnData result) /\
    forall rest rowsErr,
      queryRows ParseFloat m result (prefix ++ rest) rowsErr acc ch =
      queryRows ParseFloat m result' rest rowsErr errs ch'.
Proof.
  induction prefix as [|row prefix IH]; intros result acc ch ch' errs H.
  - simpl in H. inversion H; subst. exists result. repeat split; reflexivity.
  - simpl in H. destruct (Scan row result) as [result1|cause] eqn:Hscan; [|discriminate].
    destruct (Scan_Ok _ _ _ Hscan) as (vs & -> & Hlen & ->).
    apply bind_Returns in H as ([[ch1 n] e] & Hconv & H).
    destruct e as [e|]; [discriminate|].
    destruct (IH _ _ _ _ _ H) as (result' & Hn & Hi & Hl & Hrest).
    exists result'. repeat split; [exact Hn | exact Hi | simpl in Hl; lia |].
    intros rest rowsErr. rewrite <- app_comm_cons. cbn [queryRows].
    rewrite Hscan, Hconv. cbn [mbind outcome_bind]. apply Hrest.
Qed.

(** C10.  After rows that were converted without a fatal error, with
    the non-fatal errors [errs] accumulated: a row that fails to scan
    makes the loop return the fatal error with an empty list of
    non-fatal errors, whatever [errs] holds; a row on which the
    converter reports a fatal error makes it return that error with
    [errs] followed by the non-fatal errors of that row. *)
Theorem queryRows_fatal m result prefix rest rowsErr ch ch' errs :
  queryRows ParseFloat m result prefix None [] ch = Returns (ch', errs, None) ->
  (forall cause,
     queryRows ParseFloat m result (prefix ++ Err cause :: rest) rowsErr [] ch =
       Returns (ch', [], Some (ErrRetrievingRows (namespace m) cause))) /\
  (forall vs ch'' n e,
     length vs = length (ColumnData result) ->
     callRowFunc ParseFloat m
       (mkRowResult (ColumnNames result) (ColumnIdx result) vs) ch' =
       Returns (ch'', n, Some e) ->
     queryRows ParseFloat m result (prefix ++ Ok vs :: rest) rowsErr [] ch =
       Returns (ch'', errs ++ n, Some e)).
Proof.
  intros Hprefix.
  destruct (queryRows_prefix _ _ _ _ _ _ _ Hprefix) as (result' & Hn & Hi & Hl & Hrest).
  split.
  - intros cause. rewrite Hrest. reflexivity.
  - intros vs ch'' n e Hlen Hconv. rewrite Hrest. cbn [queryRows].
    rewrite Scan_values by lia. rewrite Hn, Hi, Hconv. reflexivity.
Qed.

(** [Query] runs that loop on the rows the service returns. *)
Lemma Query_rows m ch db names rows :
  respond db (issued db) ("SHOW " +:+ namespace m +:+ ";") = Ok rows ->
  Columns rows = Ok names ->
  Query ParseFloat m ch db =
    r ← queryRows ParseFloat m (newRowResult names) (fetched rows) (RowsErr rows) [] ch;
    Returns (mkDB (issued db ++ ["SHOW " +:+ namespace m +:+ ";"]) (respond db), r).
Proof.
  intros Hrows Hcols. unfold Query, DBQuery. rewrite Hrows, Hcols. reflexivity.
Qed.

End Scraping.

(** [Query] on two answers to [SHOW config;]: after a row whose value
    does not parse, a row that fails to scan, and a row whose key is
    not a string. *)
Lemma queryRows_fatal_witness :
  Query parseDigits sampleConfig [] (mkDB ["SHOW STATS"] (sampleRespond sampleScanFailure)) =
    Returns (mkDB ["SHOW STATS"; "SHOW config;"] (sampleRespond sampleScanFailure),
             ([], [], Some (ErrRetrievingRows "config" "bad row"))) /\
  Query parseDigits sampleConfig [] (mkDB ["SHOW STATS"] (sampleRespond sampleKeyFailure)) =
    Returns (mkDB ["SHOW STATS"; "SHOW config;"] (sampleRespond sampleKeyFailure),
             ([], [ErrKVValue "config" "max_client_conn" (VString "abc")],
              Some (ErrKVKeyNotString "config" [VNil; VString "100"]))).
Proof.
  pose (first := [Ok [VString "max_client_conn"; VString "abc"]]).
  pose (last := [Ok [VString "max_client_conn"; VString "100"]]).
  destruct (queryRows_fatal parseDigits sampleConfig (newRowResult ["key"; "value"])
              first last None [] []
              [ErrKVValue "config" "max_client_conn" (VString "abc")] eq_refl)
    as [Hscan Hconv].
  split.
  - rewrite (Query_rows parseDigits sampleConfig []
               (mkDB ["SHOW STATS"] (sampleRespond sampleScanFailure))
               ["key"; "value"] sampleScanFailure eq_refl eq_refl).
    change (fetched sampleScanFailure) with (first ++ Err "bad row" :: last).
    change (RowsErr sampleScanFailure) with (@None string).
    rewrite Hscan. reflexivity.
  - rewrite (Query_rows parseDigits sampleConfig []
               (mkDB ["SHOW STATS"] (sampleRespond sampleKeyFailure))
               ["key"; "value"] sampleKeyFailure eq_refl eq_refl).
    change (fetched sampleKeyFailure) with (first ++ Ok [VNil; VString "100"] :: last).
    change (RowsErr sampleKeyFailure) with (@None string).
    rewrite (Hconv [VNil; VString "100"] [] []
               (ErrKVKeyNotString "config" [VNil; VString "100"]) eq_refl eq_refl).
    reflexivity.
Defined.

(** ** The poll (C7, C1) *)

Section Poll.

Variable ParseFloat : string -> option float64.

(** The loop over the namespaces changes neither [up] nor the metric maps. *)
Lemma scrapeMappings_up mappings : forall e ch e' ch',
  scrapeMappings ParseFloat mappings e ch = Returns (e', ch') -> up e' = up e.
Proof.
  induction mappings as [|mapping mappings IH]; intros e ch e' ch' H; simpl in H.
  - inversion H. reflexivity.
  - apply bind_Returns in H as ([db' [[ch1 nonfatal] err]] & _ & H).
    destruct err as [err|]; [discriminate|].
    apply IH in H. exact H.
Qed.

(** A fatal error of [Query] ends the process. *)
Lemma scrapeMappings_fatal mapping mappings e ch db' ch' nonfatal err :
  Query ParseFloat mapping ch (db e) = Returns (db', (ch', nonfatal, Some err)) ->
  scrapeMappings ParseFloat (mapping :: mappings) e ch = Exits.
Proof. intros HQ. simpl. rewrite HQ. reflexivity. Qed.

Lemma Query_not_issued m ch db cause :
  respond db (issued db) ("SHOW " +:+ namespace m +:+ ";") = Err cause ->
  Query ParseFloat m ch db =
    Returns (mkDB (issued db ++ ["SHOW " +:+ namespace m +:+ ";"]) (respond db),
             (ch, [], Some (ErrRunningQuery (namespace m) cause))).
Proof. intros H. unfold Query, DBQuery. rewrite H. reflexivity. Qed.

Lemma Query_no_columns m ch db rows cause :
  respond db (issued db) ("SHOW " +:+ namespace m +:+ ";") = Ok rows ->
  Columns rows = Err cause ->
  Query ParseFloat m ch db =
    Returns (mkDB (issued db ++ ["SHOW " +:+ namespace m +:+ ";"]) (respond db),
             (ch, [], Some (ErrColumnList (namespace m) cause))).
Proof. intros H Hc. unfold Query, DBQuery. rewrite H, Hc. reflexivity. Qed.

Lemma scrape_probe_ok elapsed e ch probe :
  respond (db e) (issued (db e)) "SHOW STATS" = Ok probe ->
  scrape ParseFloat elapsed e ch =
    (r ← scrapeMappings ParseFloat (metricMap e)
           (setUp 1
              (setDB (mkDB (issued (db e) ++ ["SHOW STATS"]) (respond (db e)))
                 (setTotalScrapes (PrimFloat.add (totalScrapes e) 1) (setError 0 e))))
           ch;
     Returns (setDuration elapsed r.1, r.2)).
Proof.
  intros Hprobe. unfold scrape, DBQuery.
  cbn [db setError setTotalScrapes]. rewrite Hprobe. reflexivity.
Qed.

Lemma scrape_probe_failed elapsed e ch cause :
  respond (db e) (issued (db e)) "SHOW STATS" = Err cause ->
  scrape ParseFloat elapsed e ch =
    Returns
      (setDuration elapsed
         (setUp 0
            (setError 1
               (setDB (mkDB (issued (db e) ++ ["SHOW STATS"]) (respond (db e)))
                  (setTotalScrapes (PrimFloat.add (totalScrapes e) 1) (setError 0 e))))),
       ch).
Proof.
  intros Hprobe. unfold scrape, DBQuery.
  cbn [db setError setTotalScrapes]. rewrite Hprobe. reflexivity.
Qed.

(** When the probe succeeds and the status query of the first
    namespace cannot be issued, or its column list cannot be read, the
    poll does not return: the process ends. *)
Lemma Collect_fatal_exits elapsed e ch probe mapping mappings :
  respond (db e) (issued (db e)) "SHOW STATS" = Ok probe ->
  metricMap e = mapping :: mappings ->
  (exists cause,
     respond (db e) (issued (db e) ++ ["SHOW STATS"])
       ("SHOW " +:+ namespace mapping +:+ ";") = Err cause) \/
  (exists rows cause,
     respond (db e) (issued (db e) ++ ["SHOW STATS"])
       ("SHOW " +:+ namespace mapping +:+ ";") = Ok rows /\
     Columns rows = Err cause) ->
  Collect ParseFloat elapsed e ch = Exits.
Proof.
  intros Hprobe Hmap Hfatal. unfold Collect.
  rewrite (scrape_probe_ok _ _ _ _ Hprobe), Hmap.
  destruct Hfatal as [(cause & Hq) | (rows & cause & Hq & Hc)].
  - erewrite scrapeMappings_fatal; [reflexivity|].
    apply Query_not_issued. exact Hq.
  - erewrite scrapeMappings_fatal; [reflexivity|].
    eapply Query_no_columns; [exact Hq | exact Hc].
Qed.

(** C7.  When the probe fails, the poll sets [up] to 0, records the
    duration, issues no query besides the probe and sends nothing but
    the four health metrics.  When the probe succeeds, [up] is 1
    before the first namespace is queried, and still 1 when the poll
    returns. *)
Theorem scrape_liveness elapsed e ch :
  (forall cause,
     respond (db e) (issued (db e)) "SHOW STATS" = Err cause ->
     exists e',
       Collect ParseFloat elapsed e ch =
         Returns (e', ch ++ [DurationGauge; UpGauge; TotalScrapesCounter; ErrorGauge]) /\
       up e' = 0%float /\
       duration e' = elapsed /\
       issued (db e') = issued (db e) ++ ["SHOW STATS"]) /\
  (forall probe,
     respond (db e) (issued (db e)) "SHOW STATS" = Ok probe ->
     exists e1,
       up e1 = 1%float /\
       issued (db e1) = issued (db e) ++ ["SHOW STATS"] /\
       scrape ParseFloat elapsed e ch =
         (r ← scrapeMappings ParseFloat (metricMap e) e1 ch;
          Returns (setDuration elapsed r.1, r.2)) /\
       forall e' ch', scrape ParseFloat elapsed e ch = Returns (e', ch') ->
                      up e' = 1%float).
Proof.
  split.
  - intros cause Hprobe. eexists. unfold Collect.
    rewrite (scrape_probe_failed _ _ _ _ Hprobe).
    split; [reflexivity|]. repeat split.
  - intros probe Hprobe. eexists. split; [|split; [|split]].
    3: apply (scrape_probe_ok _ _ _ _ Hprobe).
    + reflexivity.
    + reflexivity.
    + intros e' ch' H. rewrite (scrape_probe_ok _ _ _ _ Hprobe) in H.
      apply bind_Returns in H as ([e2 ch2] & Hloop & H).
      inversion H; subst. apply scrapeMappings_up in Hloop. exact Hloop.
Qed.

End Poll.

(** A poll against a service that does not answer the probe. *)
Lemma scrape_liveness_witness :
  exists e',
    Collect parseDigits 0.25 (sampleExporter sampleDown) [] =
      Returns (e', [] ++ [DurationGauge; UpGauge; TotalScrapesCounter; ErrorGauge]) /\
    up e' = 0%float /\
    duration e' = 0.25%float /\
    issued (db e') = issued (db (sampleExporter sampleDown)) ++ ["SHOW STATS"].
Proof.
  destruct (scrape_liveness parseDigits 0.25 (sampleExporter sampleDown) []) as [H _].
  exact (H "connection refused" eq_refl).
Defined.

(** C1 does not hold of the code.  The probe succeeds, the status
    query of the first namespace fails: the poll ends the process. *)
Theorem Collect_query_failure_exits :
  Collect parseDigits 0.25 (sampleExporter (sampleRespond sampleScanFailure)) [] = Exits.
Proof. vm_compute. reflexivity. Qed.

(** ** The metric-map builder (C6) *)

Lemma labelColumn_filter l : forall acc,
  foldl labelColumn acc l =
    acc ++ (filter (fun kv : string * ColumnMapping => usage kv.2 = LABEL) l).*1.
Proof.
  induction l as [|[columnName columnMapping] l IH]; intros acc; simpl.
  - rewrite app_nil_r. reflexivity.
  - rewrite IH. unfold labelColumn. rewrite filter_cons. simpl.
    destruct (decide (usage columnMapping = LABEL)); simpl.
    + rewrite <- app_assoc. reflexivity.
    + reflexivity.
Qed.

Lemma convertColumn_other metricNamespace ns lbls thisMap kv column :
  kv.1 <> column ->
  convertColumn metricNamespace ns lbls thisMap kv !! column = thisMap !! column.
Proof.
  destruct kv as [columnName columnMapping]. simpl. intros Hne.
  destruct (usage columnMapping); try reflexivity; apply lookup_insert_ne; exact Hne.
Qed.

Lemma convertColumn_same metricNamespace ns lbls thisMap thisMap' column columnMapping :
  thisMap !! column = thisMap' !! column ->
  convertColumn metricNamespace ns lbls thisMap (column, columnMapping) !! column =
  convertColumn metricNamespace ns lbls thisMap' (column, columnMapping) !! column.
Proof.
  intros H. simpl.
  destruct (usage columnMapping); rewrite ?lookup_insert_eq; first [reflexivity | exact H].
Qed.

Lemma convertColumns_notin metricNamespace ns lbls l : forall thisMap column,
  column ∉ l.*1 ->
  foldl (convertColumn metricNamespace ns lbls) thisMap l !! column = thisMap !! column.
Proof.
  induction l as [|kv l IH]; intros thisMap column Hnotin; simpl; [reflexivity|].
  rewrite fmap_cons in Hnotin. apply not_elem_of_cons in Hnotin as [Hne Hnotin].
  rewrite IH by exact Hnotin. apply convertColumn_other. congruence.
Qed.

(** With each column visited once, the entry of a column in the
    compiled map is the one its own visit stores. *)
Lemma convertColumns_lookup metricNamespace ns lbls l : forall thisMap column columnMapping,
  NoDup l.*1 -> (column, columnMapping) ∈ l ->
  foldl (convertColumn metricNamespace ns lbls) thisMap l !! column =
  convertColumn metricNamespace ns lbls thisMap (column, columnMapping) !! column.
Proof.
  induction l as [|kv l IH]; intros thisMap column columnMapping Hnd Hin; [inversion Hin|].
  rewrite fmap_cons in Hnd. apply NoDup_cons in Hnd as [Hfresh Hnd].
  apply elem_of_cons in Hin as [<-|Hin]; simpl.
  - apply convertColumns_notin. exact Hfresh.
  - rewrite (IH _ _ _ Hnd Hin). apply convertColumn_same.
    apply convertColumn_other. intros Heq. apply Hfresh. rewrite Heq.
    apply (list_elem_of_fmap_2 fst) in Hin. exact Hin.
Qed.

Lemma foldl_snoc_elem {A B} (f : list B -> A -> list B) (g : A -> B) :
  (forall acc x, f acc x = acc ++ [g x]) ->
  forall l acc,
    (forall y, y ∈ acc -> y ∈ foldl f acc l) /\
    (forall x, x ∈ l -> g x ∈ foldl f acc l).
Proof.
  intros Hf. induction l as [|a l IH]; intros acc; simpl.
  - split; [auto | intros x Hx; inversion Hx].
  - destruct (IH (f acc a)) as [Hkeep Hnew]. split.
    + intros y Hy. apply Hkeep. rewrite Hf. apply elem_of_app. left. exact Hy.
    + intros x Hx. apply elem_of_cons in Hx as [->|Hx].
      * apply Hkeep. rewrite Hf. apply elem_of_app. right. left.
      * apply Hnew. exact Hx.
Qed.

Section BuilderProperties.

Variable goRange : forall V : Type, gmap string V -> list (string * V).

(** A [range] over a map visits each of its entries once, in some order. *)
Hypothesis goRange_perm :
  forall (V : Type) (m : gmap string V), goRange V m ≡ₚ map_to_list m.

Lemma goRange_elem {V} (m : gmap string V) k v :
  (k, v) ∈ goRange V m <-> m !! k = Some v.
Proof. rewrite goRange_perm. apply elem_of_map_to_list. Qed.

Lemma goRange_NoDup {V} (m : gmap string V) : NoDup (goRange V m).*1.
Proof. rewrite goRange_perm. apply NoDup_fst_map_to_list. Qed.

Lemma convert_in_makeMetricMaps metricNamespace ns mappings :
  (metricRowMaps !! ns = Some mappings ->
   convert goRange metricNamespace ns mappings RowFunc
     ∈ makeMetricMaps goRange metricNamespace) /\
  (metricKVMaps !! ns = Some mappings ->
   convert goRange metricNamespace ns mappings KVFunc
     ∈ makeMetricMaps goRange metricNamespace).
Proof.
  unfold makeMetricMaps.
  set (rowStep := fun (metricMap : list MetricMapFromNamespace)
                      '((namespace, mappings) : string * gmap string ColumnMapping) =>
                    metricMap ++ [convert goRange metricNamespace namespace mappings RowFunc]).
  set (kvStep := fun (metricMap : list MetricMapFromNamespace)
                     '((namespace, mappings) : string * gmap string ColumnMapping) =>
                   metricMap ++ [convert goRange metricNamespace namespace mappings KVFunc]).
  assert (Hrow : forall acc x, rowStep acc x =
            acc ++ [convert goRange metricNamespace x.1 x.2 RowFunc]).
  { intros acc [a b]. reflexivity. }
  assert (Hkv : forall acc x, kvStep acc x =
            acc ++ [convert goRange metricNamespace x.1 x.2 KVFunc]).
  { intros acc [a b]. reflexivity. }
  split; intros H; apply goRange_elem in H.
  - apply (proj1 (foldl_snoc_elem kvStep _ Hkv _ _)).
    apply (proj2 (foldl_snoc_elem rowStep _ Hrow _ []) (ns, mappings)). exact H.
  - apply (proj2 (foldl_snoc_elem kvStep _ Hkv _ _) (ns, mappings)). exact H.
Qed.

(** C6.  For every namespace of either schema table the builder
    produces a map of that namespace whose label list enumerates the
    label columns and which has, for each column that is not a label,
    an entry whose descriptor is named prefix, namespace and exported
    name (the column name when there is no override) joined by
    underscores and carries the label list of the namespace; the entry's
    value type is counter for [COUNTER] and gauge for [GAUGE] and
    [GAUGE_MS]; its multiplier is [1e-6] for [GAUGE_MS] and 1 otherwise.
    Label columns have no entry.  With the multiplier [1e-6] the value
    2500000 becomes 2.5. *)
Theorem makeMetricMaps_descriptors metricNamespace ns mappings :
  metricRowMaps !! ns = Some mappings \/ metricKVMaps !! ns = Some mappings ->
  (exists m,
     m ∈ makeMetricMaps goRange metricNamespace /\
     namespace m = ns /\
     labels m ≡ₚ
       (filter (fun kv : string * ColumnMapping => usage kv.2 = LABEL)
          (map_to_list mappings)).*1 /\
     forall column columnMapping,
       mappings !! column = Some columnMapping ->
       match usage columnMapping with
       | LABEL => columnMappings m !! column = None
       | u =>
           exists metricMapping,
             columnMappings m !! column = Some metricMapping /\
             fqName (desc metricMapping) =
               metricNamespace +:+ "_" +:+ ns +:+ "_" +:+
                 (if decide (promMetricName columnMapping = "") then column
                  else promMetricName columnMapping) /\
             variableLabels (desc metricMapping) = labels m /\
             vtype metricMapping =
               match u with COUNTER => CounterValue | _ => GaugeValue end /\
             multiplier metricMapping =
               match u with GAUGE_MS => float64_1e_6 | _ => 1%float end
       end) /\
  PrimFloat.mul (float64_of_int64 2500000) float64_1e_6 = 2.5%float.
Proof.
  intros Htable. split; [|vm_compute; reflexivity].
  assert (Hgen : forall converter,
    let m := convert goRange metricNamespace ns mappings converter in
    namespace m = ns /\
    labels m ≡ₚ
      (filter (fun kv : string * ColumnMapping => usage kv.2 = LABEL)
         (map_to_list mappings)).*1 /\
    forall column columnMapping,
      mappings !! column = Some columnMapping ->
      match usage columnMapping with
      | LABEL => columnMappings m !! column = None
      | u =>
          exists metricMapping,
            columnMappings m !! column = Some metricMapping /\
            fqName (desc metricMapping) =
              metricNamespace +:+ "_" +:+ ns +:+ "_" +:+
                (if decide (promMetricName columnMapping = "") then column
                 else promMetricName columnMapping) /\
            variableLabels (desc metricMapping) = labels m /\
            vtype metricMapping =
              match u with COUNTER => CounterValue | _ => GaugeValue end /\
            multiplier metricMapping =
              match u with GAUGE_MS => float64_1e_6 | _ => 1%float end
      end).
  { intros converter m. split; [reflexivity|]. split.
    - unfold m, convert. cbn [labels]. rewrite labelColumn_filter. simpl.
      rewrite goRange_perm. reflexivity.
    - intros column columnMapping Hcol. unfold m, convert. cbn [columnMappings labels].
      rewrite (convertColumns_lookup _ _ _ _ _ column columnMapping
                 (goRange_NoDup mappings) (proj2 (goRange_elem _ _ _) Hcol)).
      simpl.
      destruct (usage columnMapping) eqn:Hu.
      + apply lookup_empty.
      + rewrite lookup_insert_eq. eexists. split; [reflexivity|].
        destruct (decide (promMetricName columnMapping = "")); repeat split.
      + rewrite lookup_insert_eq. eexists. split; [reflexivity|].
        destruct (decide (promMetricName columnMapping = "")); repeat split.
      + rewrite lookup_insert_eq. eexists. split; [reflexivity|].
        destruct (decide (promMetricName columnMapping = "")); repeat split. }
  destruct (convert_in_makeMetricMaps metricNamespace ns mappings) as [Hrow Hkv].
  destruct Htable as [Htable|Htable].
  - exists (convert goRange metricNamespace ns mappings RowFunc).
    split; [exact (Hrow Htable) | exact (Hgen RowFunc)].
  - exists (convert goRange metricNamespace ns mappings KVFunc).
    split; [exact (Hkv Htable) | exact (Hgen KVFunc)].
Qed.

End BuilderProperties.

(** The column [avg_query] of the namespace [stats], with the maps
    visited in the order of [map_to_list]. *)
Lemma makeMetricMaps_descriptors_witness :
  exists m,
    m ∈ makeMetricMaps (fun V => map_to_list) "pgbouncer" /\
    namespace m = "stats" /\
    exists metricMapping,
      columnMappings m !! "avg_query" = Some metricMapping /\
      fqName (desc metricMapping) = "pgbouncer_stats_avg_query_duration_microseconds" /\
      variableLabels (desc metricMapping) = labels m /\
      vtype metricMapping = GaugeValue /\
      multiplier metricMapping = float64_1e_6.
Proof.
  destruct (makeMetricMaps_descriptors (fun V => map_to_list)
              (fun V m => reflexivity (map_to_list m))
              "pgbouncer" "stats" statsMappings)
    as [(m & Hin & Hns & _ & Hcols) _].
  - left. vm_compute. reflexivity.
  - exists m. split; [exact Hin|]. split; [exact Hns|].
    exact (Hcols "avg_query"
             (mkColumnMapping GAUGE_MS "avg_query_duration_microseconds"
                "The average query duration, shown as microsecond")
             ltac:(vm_compute; reflexivity)).
Defined.

(** A scaled gauge end to end: the compiled map of [stats] turns an
    average query duration of 2500000 microseconds into the observation
    2.5. *)
Example metricRowConverter_scaled_gauge :
  metricRowConverter parseDigits sampleStats sampleStatsRow [] =
    Returns ([MustNewConstMetric
                (NewDesc "pgbouncer_stats_avg_query_duration_microseconds"
                   "The average query duration, shown as microsecond" ["database"])
                GaugeValue 2.5 ["db1"]], [], None).
Proof. vm_compute. reflexivity. Qed.

(** The examples of the specification for the key-value converter. *)
Example metricKVConverter_samples :
  metricKVConverter parseDigits sampleConfig
    (scannedRow ["key"; "value"] [VString "max_client_conn"; VString "100"]) [] =
    Returns ([MustNewConstMetric
                (NewDesc "pgbouncer_config_max_client_conn"
                   "Maximum number of client connections allowed" [])
                GaugeValue 100 []], [], None) /\
  metricKVConverter parseDigits sampleConfig
    (scannedRow ["key"; "value"] [VString "unknown_key"; VString "5"]) [] =
    Returns ([], [], None) /\
  metricKVConverter parseDigits sampleConfig
    (scannedRow ["key"] [VString "max_client_conn"]) [] =
    Returns ([], [], Some (ErrKVNotEnoughColumns "config" [VString "max_client_conn"])).
Proof. repeat split; vm_compute; reflexivity. Qed.

(** * Further properties *)

(** ** The column index of a result *)

(** The index maps a column name to the position of its last occurrence. *)
Lemma indexColumns_last names : forall i idx n,
  n ∈ names ->
  exists j,
    indexColumns i names idx !! n = Some (i + j) /\
    names !! j = Some n /\
    forall j', names !! j' = Some n -> j' <= j.
Proof.
  induction names as [|a names IH]; intros i idx n Hin; [inversion Hin|].
  destruct (decide (n ∈ names)) as [Hrest|Hrest].
  - destruct (IH (S i) (<[a := i]> idx) n Hrest) as (j & Hj & Hn & Hmax).
    exists (S j). split; [|split].
    + simpl. rewrite Hj. f_equal. lia.
    + exact Hn.
    + intros [|j'] Hj'; [lia|]. apply le_n_S, Hmax. exact Hj'.
  - apply elem_of_cons in Hin as [->|Hin]; [|contradiction].
    exists 0. split; [|split].
    + simpl. rewrite indexColumns_notin by exact Hrest.
      rewrite lookup_insert_eq. f_equal. lia.
    + reflexivity.
    + intros [|j'] Hj'; [lia|]. exfalso. apply Hrest.
      eapply list_elem_of_lookup_2. exact Hj'.
Qed.

(** X1.  Looking a column name up in the index and then in the column
    names gives the name back; among several columns of the same name
    the index keeps the last one. *)
Theorem indexColumns_round_trip names n :
  n ∈ names ->
  names !! mapIndex (indexColumns 0 names ∅) n = Some n /\
  forall j, names !! j = Some n -> j <= mapIndex (indexColumns 0 names ∅) n.
Proof.
  intros Hin. destruct (indexColumns_last names 0 ∅ n Hin) as (j & Hj & Hn & Hmax).
  unfold mapIndex. rewrite Hj. simpl. split; [exact Hn | exact Hmax].
Qed.

(** The columns [a; b; a]: the name [a] is found at position 2. *)
Lemma indexColumns_round_trip_witness :
  ["a"; "b"; "a"] !! mapIndex (indexColumns 0 ["a"; "b"; "a"] ∅) "a" = Some "a" /\
  mapIndex (indexColumns 0 ["a"; "b"; "a"] ∅) "a" = 2.
Proof.
  destruct (indexColumns_round_trip ["a"; "b"; "a"] "a") as [Hrt Hmax].
  - left.
  - split; [exact Hrt|]. apply Nat.le_antisymm; [|apply Hmax; reflexivity].
    vm_compute. lia.
Defined.

Lemma mapIndex_position names i n :
  NoDup names -> names !! i = Some n ->
  mapIndex (indexColumns 0 names ∅) n = i.
Proof.
  intros Hnd Hi.
  destruct (indexColumns_last names 0 ∅ n) as (j & Hj & Hn & _).
  { eapply list_elem_of_lookup_2. exact Hi. }
  unfold mapIndex. rewrite Hj. simpl.
  eapply NoDup_lookup; eassumption.
Qed.

(** X2.  On a scanned row whose column names are distinct, a label
    column that is among the result columns is read from the cell of
    its own column. *)
Theorem label_reads_own_column result i name cell :
  scanned result -> NoDup (ColumnNames result) ->
  ColumnNames result !! i = Some name ->
  ColumnData result !! i = Some cell ->
  mapIndex (ColumnIdx result) name = i /\
  index (ColumnData result) (mapIndex (ColumnIdx result) name) = Returns cell.
Proof.
  intros [Hidx _] Hnd Hname Hcell.
  assert (Hi : mapIndex (ColumnIdx result) name = i).
  { rewrite Hidx. apply mapIndex_position; assumption. }
  split; [exact Hi|]. rewrite Hi. apply index_Returns. exact Hcell.
Qed.

(** The label [pool_mode] of the sample row of [pools]. *)
Lemma label_reads_own_column_witness :
  mapIndex (ColumnIdx samplePoolsRow) "pool_mode" = 1 /\
  index (ColumnData samplePoolsRow) (mapIndex (ColumnIdx samplePoolsRow) "pool_mode")
    = Returns (VString "session").
Proof.
  apply (label_reads_own_column samplePoolsRow 1 "pool_mode" (VString "session")).
  - split; reflexivity.
  - apply (bool_decide_unpack (NoDup (ColumnNames samplePoolsRow))). vm_compute. exact I.
  - reflexivity.
  - reflexivity.
Defined.

(** ** What is sent on the channel *)

Section Sending.

Variable ParseFloat : string -> option float64.

Lemma columnStep_sends m result labelValues errs ch idx columnName errs' ch' :
  columnStep ParseFloat m result labelValues (errs, ch) idx columnName =
    Returns (errs', ch') ->
  exists new, ch' = ch ++ new /\ Forall isConstMetric new.
Proof.
  unfold columnStep. destruct (columnMappings m !! columnName) as [metricMapping|].
  - intros H. apply bind_Returns in H as (cell & _ & H).
    destruct (dbToFloat64 ParseFloat cell) as [val [|]]; simpl in H; inversion H; subst.
    + eexists. split; [reflexivity|]. repeat constructor.
    + exists []. rewrite app_nil_r. split; [reflexivity | constructor].
  - intros H. inversion H; subst. exists []. rewrite app_nil_r.
    split; [reflexivity | constructor].
Qed.

Lemma columnLoop_sends m result labelValues names : forall i errs ch errs' ch',
  rangeLoop (columnStep ParseFloat m result labelValues) i names (errs, ch) =
    Returns (errs', ch') ->
  exists new, ch' = ch ++ new /\ Forall isConstMetric new.
Proof.
  induction names as [|name names IH]; intros i errs ch errs' ch' H.
  - inversion H; subst. exists []. rewrite app_nil_r. split; [reflexivity | constructor].
  - cbn [rangeLoop] in H. apply bind_Returns in H as ([errs1 ch1] & Hstep & H).
    apply columnStep_sends in Hstep as (new1 & -> & Hnew1).
    apply IH in H as (new2 & -> & Hnew2).
    exists (new1 ++ new2). rewrite app_assoc. split; [reflexivity|].
    apply Forall_app. split; assumption.
Qed.

Lemma callRowFunc_sends m result ch ch' errs fatal :
  callRowFunc ParseFloat m result ch = Returns (ch', errs, fatal) ->
  exists new, ch' = ch ++ new /\ Forall isConstMetric new.
Proof.
  unfold callRowFunc. destruct (rowFunc m).
  - unfold metricRowConverter. intros H.
    apply bind_Returns in H as (labelValues & _ & H).
    apply bind_Returns in H as ([errs1 ch1] & Hloop & H).
    inversion H; subst. eapply columnLoop_sends. exact Hloop.
  - intros H.
    assert (Hsame : ch' = ch \/ exists x, ch' = ch ++ [x] /\ isConstMetric x).
    { destruct (ColumnData result) as [|k [|cell rest]] eqn:Hdata.
      - rewrite metricKVConverter_short in H by (rewrite Hdata; simpl; lia).
        inversion H. left. reflexivity.
      - rewrite metricKVConverter_short in H by (rewrite Hdata; simpl; lia).
        inversion H. left. reflexivity.
      - rewrite (metricKVConverter_pair _ _ _ _ _ _ _ Hdata) in H.
        destruct k; try (inversion H; left; reflexivity).
        destruct (columnMappings m !! v); [|inversion H; left; reflexivity].
        destruct (dbToFloat64 ParseFloat cell) as [val [|]]; simpl in H; inversion H.
        + right. eexists. split; [reflexivity | exact I].
        + left. reflexivity. }
    destruct Hsame as [->|(x & -> & Hx)].
    + exists []. rewrite app_nil_r. split; [reflexivity | constructor].
    + exists [x]. split; [reflexivity | repeat constructor; exact Hx].
Qed.

Lemma queryRows_sends m pending : forall result rowsErr acc ch ch' errs fatal,
  queryRows ParseFloat m result pending rowsErr acc ch = Returns (ch', errs, fatal) ->
  exists new, ch' = ch ++ new /\ Forall isConstMetric new.
Proof.
  induction pending as [|row pending IH]; intros result rowsErr acc ch ch' errs fatal H.
  - simpl in H. exists []. rewrite app_nil_r. split; [|constructor].
    destruct rowsErr; inversion H; reflexivity.
  - cbn [queryRows] in H. destruct (Scan row result) as [result1|cause].
    + apply bind_Returns in H as ([[ch1 n] e] & Hconv & H).
      apply callRowFunc_sends in Hconv as (new1 & -> & Hnew1).
      destruct e as [e|].
      * inversion H; subst. exists new1. split; [reflexivity | exact Hnew1].
      * apply IH in H as (new2 & -> & Hnew2).
        exists (new1 ++ new2). rewrite app_assoc. split; [reflexivity|].
        apply Forall_app. split; assumption.
    + inversion H; subst. exists []. rewrite app_nil_r. split; [reflexivity | constructor].
Qed.

(** [Query] issues its status query, keeps the service, and only adds
    constant metrics to the channel. *)
Lemma Query_Returns m ch db db' ch' errs fatal :
  Query ParseFloat m ch db = Returns (db', (ch', errs, fatal)) ->
  db' = mkDB (issued db ++ [statusQuery m]) (respond db) /\
  exists new, ch' = ch ++ new /\ Forall isConstMetric new.
Proof.
  unfold Query, DBQuery, statusQuery.
  destruct (respond db (issued db) ("SHOW " +:+ namespace m +:+ ";")) as [rows|cause].
  - destruct (Columns rows) as [names|cause].
    + intros H. apply bind_Returns in H as ([[ch1 errs1] fatal1] & Hrows & H).
      inversion H; subst. split; [reflexivity|].
      eapply queryRows_sends. exact Hrows.
    + intros H. inversion H; subst. split; [reflexivity|].
      exists []. rewrite app_nil_r. split; [reflexivity | constructor].
  - intros H. inversion H; subst. split; [reflexivity|].
    exists []. rewrite app_nil_r. split; [reflexivity | constructor].
Qed.

(** What the loop over the namespaces keeps and what it adds. *)
Lemma scrapeMappings_Returns mappings : forall e ch e' ch',
  scrapeMappings ParseFloat mappings e ch = Returns (e', ch') ->
  duration e' = duration e /\ up e' = up e /\ totalScrapes e' = totalScrapes e /\
  metricMap e' = metricMap e /\ respond (db e') = respond (db e) /\
  issued (db e') = issued (db e) ++ (statusQuery <$> mappings) /\
  exists new, ch' = ch ++ new /\ Forall isConstMetric new.
Proof.
  induction mappings as [|mapping mappings IH]; intros e ch e' ch' H.
  - inversion H; subst. rewrite !app_nil_r.
    repeat split. exists []. rewrite app_nil_r. split; [reflexivity | constructor].
  - cbn [scrapeMappings] in H.
    apply bind_Returns in H as ([db1 [[ch1 nonfatal] err]] & HQ & H).
    destruct err as [err|]; [discriminate|].
    apply Query_Returns in HQ as (-> & new1 & -> & Hnew1).
    apply IH in H as (Hd & Hu & Ht & Hm & Hr & Hi & new2 & -> & Hnew2).
    cbn in Hd, Hu, Ht, Hm, Hr, Hi.
    repeat split; try assumption.
    + rewrite Hi, fmap_cons, <- app_assoc. reflexivity.
    + exists (new1 ++ new2). rewrite app_assoc. split; [reflexivity|].
      apply Forall_app. split; assumption.
Qed.

(** What every poll that returns has done. *)
Lemma scrape_Returns elapsed e ch e' ch' :
  scrape ParseFloat elapsed e ch = Returns (e', ch') ->
  totalScrapes e' = PrimFloat.add (totalScrapes e) 1 /\
  duration e' = elapsed /\
  metricMap e' = metricMap e /\ respond (db e') = respond (db e) /\
  exists new, ch' = ch ++ new /\ Forall isConstMetric new.
Proof.
  intros H.
  destruct (respond (db e) (issued (db e)) "SHOW STATS") as [probe|cause] eqn:Hprobe.
  - rewrite (scrape_probe_ok _ _ _ _ _ Hprobe) in H.
    apply bind_Returns in H as ([e2 ch2] & Hloop & H). inversion H; subst.
    apply scrapeMappings_Returns in Hloop as (_ & _ & Ht & Hm & Hr & _ & Hnew).
    repeat split; assumption.
  - rewrite (scrape_probe_failed _ _ _ _ _ Hprobe) in H. inversion H; subst.
    repeat split. exists []. rewrite app_nil_r. split; [reflexivity | constructor].
Qed.

(** X3.  Whatever [Collect] returns, the metrics that were on the
    channel are still there, in front and in order; what it adds are
    constant metrics followed by the four health metrics, which are
    always last and in the order duration, up, total scrapes, error. *)
Theorem Collect_sends elapsed e ch e' ch' :
  Collect ParseFloat elapsed e ch = Returns (e', ch') ->
  exists new,
    ch' = ch ++ new ++ [DurationGauge; UpGauge; TotalScrapesCounter; ErrorGauge] /\
    Forall isConstMetric new.
Proof.
  unfold Collect. intros H. apply bind_Returns in H as ([e1 ch1] & Hscrape & H).
  inversion H; subst. clear H.
  apply scrape_Returns in Hscrape as (_ & _ & _ & _ & new & -> & Hnew).
  exists new. simpl. rewrite <- app_assoc. split; [reflexivity | exact Hnew].
Qed.

End Sending.

(** A poll against a service that does not answer the probe, with one
    metric already on the channel. *)
Lemma Collect_sends_witness :
  exists new,
    [UpGauge; DurationGauge; UpGauge; TotalScrapesCounter; ErrorGauge] =
      [UpGauge] ++ new ++ [DurationGauge; UpGauge; TotalScrapesCounter; ErrorGauge] /\
    Forall isConstMetric new.
Proof.
  refine (Collect_sends parseDigits 0.25 (sampleExporter sampleDown) [UpGauge] _ _ _).
  vm_compute. reflexivity.
Defined.

(** ** What a poll keeps and what it changes *)

Section PollInvariants.

Variable ParseFloat : string -> option float64.

(** X4.  Every poll that returns has incremented [totalScrapes] by
    exactly one and recorded the elapsed time in [duration], whether
    the probe succeeded or not. *)
Theorem scrape_counts_once elapsed e ch e' ch' :
  scrape ParseFloat elapsed e ch = Returns (e', ch') ->
  totalScrapes e' = PrimFloat.add (totalScrapes e) 1 /\ duration e' = elapsed.
Proof.
  intros H. apply scrape_Returns in H as (Ht & Hd & _). split; assumption.
Qed.

(** X5.  A poll never changes the compiled metric maps nor the
    service it talks to: the next poll queries the same namespaces. *)
Theorem scrape_keeps_metricMap elapsed e ch e' ch' :
  scrape ParseFloat elapsed e ch = Returns (e', ch') ->
  metricMap e' = metricMap e /\ respond (db e') = respond (db e).
Proof.
  intros H. apply scrape_Returns in H as (_ & _ & Hm & Hr & _). split; assumption.
Qed.

(** X6.  A poll that returns after a successful probe has issued the
    probe and then exactly one status query per namespace map, in the
    order of [metricMap], and nothing else. *)
Theorem scrape_issues_one_query_each elapsed e ch e' ch' probe :
  respond (db e) (issued (db e)) "SHOW STATS" = Ok probe ->
  scrape ParseFloat elapsed e ch = Returns (e', ch') ->
  issued (db e') =
    issued (db e) ++ "SHOW STATS" :: (statusQuery <$> metricMap e).
Proof.
  intros Hprobe H. rewrite (scrape_probe_ok _ _ _ _ _ Hprobe) in H.
  apply bind_Returns in H as ([e2 ch2] & Hloop & H). inversion H; subst.
  apply scrapeMappings_Returns in Hloop as (_ & _ & _ & _ & _ & Hi & _).
  cbn in Hi. cbn [db setDuration]. rewrite Hi, <- app_assoc. reflexivity.
Qed.

Lemma scrapeMappings_setDuration v mappings : forall e ch,
  scrapeMappings ParseFloat mappings (setDuration v e) ch =
    r ← scrapeMappings ParseFloat mappings e ch;
    Returns (setDuration v r.1, r.2).
Proof.
  induction mappings as [|mapping mappings IH]; intros e ch; [reflexivity|].
  cbn [scrapeMappings]. cbn [db setDuration].
  destruct (Query ParseFloat mapping ch (db e)) as [[db1 [[ch1 nonfatal] err]]| |];
    [|reflexivity|reflexivity].
  cbn [mbind outcome_bind]. destruct err as [err|]; [reflexivity|].
  apply (IH (setError _ (setDB db1 e))).
Qed.

(** X7.  A poll starts from a clean slate: its outcome does not depend
    on the values the error, up and duration gauges had before. *)
Theorem scrape_overwrites_gauges elapsed e ch v :
  scrape ParseFloat elapsed (setError v e) ch = scrape ParseFloat elapsed e ch /\
  scrape ParseFloat elapsed (setUp v e) ch = scrape ParseFloat elapsed e ch /\
  scrape ParseFloat elapsed (setDuration v e) ch = scrape ParseFloat elapsed e ch.
Proof.
  split; [reflexivity|]. split; [reflexivity|].
  destruct e as [d u er t mm dbe].
  destruct (respond dbe (issued dbe) "SHOW STATS") as [probe|cause] eqn:Hprobe.
  - rewrite (scrape_probe_ok _ _ (setDuration v (mkExporter d u er t mm dbe)) _ probe Hprobe).
    rewrite (scrape_probe_ok _ _ (mkExporter d u er t mm dbe) _ probe Hprobe).
    change (setUp 1 (setDB ?D (setTotalScrapes ?T (setError 0 (setDuration v ?E)))))
      with (setDuration v (setUp 1 (setDB D (setTotalScrapes T (setError 0 E))))).
    change (metricMap (setDuration v ?E)) with (metricMap E).
    rewrite scrapeMappings_setDuration.
    destruct (scrapeMappings ParseFloat _ _ ch) as [[e1 ch1]| |]; reflexivity.
  - rewrite (scrape_probe_failed _ _ (setDuration v (mkExporter d u er t mm dbe)) _ cause Hprobe).
    rewrite (scrape_probe_failed _ _ (mkExporter d u er t mm dbe) _ cause Hprobe).
    reflexivity.
Qed.

Lemma scrapeMappings_app pre : forall post e ch,
  scrapeMappings ParseFloat (pre ++ post) e ch =
    r ← scrapeMappings ParseFloat pre e ch;
    scrapeMappings ParseFloat post r.1 r.2.
Proof.
  induction pre as [|mapping pre IH]; intros post e ch; [reflexivity|].
  rewrite <- app_comm_cons. cbn [scrapeMappings].
  destruct (Query ParseFloat mapping ch (db e)) as [[db1 [[ch1 nonfatal] err]]| |];
    [|reflexivity|reflexivity].
  cbn [mbind outcome_bind]. destruct err as [err|]; [reflexivity|]. apply IH.
Qed.

(** X8.  A fatal error of [Query] on any namespace, after any number
    of namespaces scraped without one, ends the process: this holds for
    a row that fails to scan and for a key-value row of the wrong shape
    as much as for a query that cannot be issued. *)
Theorem scrapeMappings_any_fatal_exits pre mapping post e ch e1 ch1 db' ch' errs err :
  scrapeMappings ParseFloat pre e ch = Returns (e1, ch1) ->
  Query ParseFloat mapping ch1 (db e1) = Returns (db', (ch', errs, Some err)) ->
  scrapeMappings ParseFloat (pre ++ mapping :: post) e ch = Exits.
Proof.
  intros Hpre HQ. rewrite scrapeMappings_app, Hpre. cbn [mbind outcome_bind fst snd].
  eapply scrapeMappings_fatal. exact HQ.
Qed.

End PollInvariants.

(** A poll of the sample exporter against a service that answers. *)
Lemma scrape_counts_once_witness :
  exists e' ch',
    scrape parseDigits 0.25 (sampleExporter sampleUp) [] = Returns (e', ch') /\
    totalScrapes e' = PrimFloat.add (totalScrapes (sampleExporter sampleUp)) 1 /\
    duration e' = 0.25%float.
Proof.
  eexists _, _. split; [vm_compute; reflexivity|].
  eapply (scrape_counts_once parseDigits 0.25 (sampleExporter sampleUp) []).
  vm_compute. reflexivity.
Defined.

Lemma scrape_keeps_metricMap_witness :
  exists e' ch',
    scrape parseDigits 0.25 (sampleExporter sampleUp) [] = Returns (e', ch') /\
    metricMap e' = metricMap (sampleExporter sampleUp) /\
    respond (db e') = respond (db (sampleExporter sampleUp)).
Proof.
  eexists _, _. split; [vm_compute; reflexivity|].
  eapply (scrape_keeps_metricMap parseDigits 0.25 (sampleExporter sampleUp) []).
  vm_compute. reflexivity.
Defined.

Lemma scrape_issues_one_query_each_witness :
  exists e' ch',
    scrape parseDigits 0.25 (sampleExporter sampleUp) [] = Returns (e', ch') /\
    issued (db e') = ["SHOW STATS"; "SHOW pools;"; "SHOW config;"].
Proof.
  eexists _, _. split; [vm_compute; reflexivity|].
  eapply (scrape_issues_one_query_each parseDigits 0.25 (sampleExporter sampleUp) []).
  - reflexivity.
  - vm_compute. reflexivity.
Defined.

(** After [pools] is scraped, a row of [config] whose key is not a
    string ends the process. *)
Lemma scrapeMappings_any_fatal_exits_witness :
  scrapeMappings parseDigits ([samplePools] ++ sampleConfig :: [])
    (sampleExporter (sampleUpWith sampleKeyFailure)) [] = Exits.
Proof.
  eapply (scrapeMappings_any_fatal_exits parseDigits [samplePools] sampleConfig []).
  - vm_compute. reflexivity.
  - vm_compute. reflexivity.
Defined.

(** ** More on [Query] and the converters *)

Section QueryAndConverters.

Variable ParseFloat : string -> option float64.

(** X9.  What [rows.Err()] reports once the rows are consumed is never
    fatal: after rows converted with the non-fatal errors [errs], it is
    returned as one more non-fatal error, after [errs]. *)
Theorem queryRows_rows_err m result rows ch ch' errs err :
  queryRows ParseFloat m result rows None [] ch = Returns (ch', errs, None) ->
  queryRows ParseFloat m result rows (Some err) [] ch =
    Returns (ch', errs ++ [ErrConsumeRows err], None).
Proof.
  intros H. destruct (queryRows_prefix _ _ _ _ _ _ _ _ H) as (result' & _ & _ & _ & Hrest).
  specialize (Hrest [] (Some err)). rewrite app_nil_r in Hrest. exact Hrest.
Qed.

Lemma columnEffect_count m labelValues ncs effs :
  Forall2 (fun nc eff =>
             columnEffect ParseFloat m labelValues nc.1 nc.2 eff.1 eff.2)
    ncs effs ->
  length (concat effs.*2) + length (concat effs.*1) =
    length (compiledColumns m ncs.*1).
Proof.
  unfold compiledColumns.
  induction 1 as [|nc eff ncs effs Heff _ IH]; [reflexivity|].
  rewrite !fmap_cons. cbn [concat]. rewrite !length_app, filter_cons.
  inversion Heff as [Hmap Hes Hos | mm val Hmap Hco Hes Hos | mm val Hmap Hco Hes Hos].
  - rewrite decide_False by (rewrite Hmap; apply is_Some_None). simpl. lia.
  - rewrite decide_True by (rewrite Hmap; eauto). simpl. lia.
  - rewrite decide_True by (rewrite Hmap; eauto). simpl. lia.
Qed.

(** X10.  On a row with one cell per column, every result column that
    has a compiled entry accounts for exactly one send or exactly one
    non-fatal error, and no other column for anything: the sends and
    the errors of the row converter add up to the number of such
    columns. *)
Theorem metricRowConverter_accounts m result ch ch' errs fatal :
  length (ColumnData result) = length (ColumnNames result) ->
  metricRowConverter ParseFloat m result ch = Returns (ch', errs, fatal) ->
  length ch' + length errs =
    length ch + length (compiledColumns m (ColumnNames result)).
Proof.
  intros Hlen H.
  assert (Hlabels : exists labelValues, collectLabels m result = Returns labelValues).
  { unfold metricRowConverter in H. apply bind_Returns in H as (lvs & Hl & _). eauto. }
  destruct Hlabels as (labelValues & Hlabels).
  destruct (metricRowConverter_effects ParseFloat m result ch labelValues Hlen Hlabels)
    as (effs & Hconv & Hall).
  rewrite Hconv in H. inversion H; subst.
  apply columnEffect_count in Hall.
  rewrite fst_zip in Hall by lia. rewrite length_app. lia.
Qed.

(** X11.  A coercion that fails never carries a number: with
    [ok = false] the value is NaN. *)
Theorem dbToFloat64_failure_is_NaN t val :
  dbToFloat64 ParseFloat t = (val, false) -> val = NaN.
Proof.
  destruct t; simpl;
    try (intros H; inversion H; reflexivity);
    try discriminate.
  - destruct (ParseFloat (string_of_bytes v)); intros H; inversion H; reflexivity.
  - destruct (ParseFloat v); intros H; inversion H; reflexivity.
Qed.


(** X12.  The key-value converter looks at the first two cells only:
    with a string key, the cells after the second, the column names and
    the column index have no influence on what it returns. *)
Theorem metricKVConverter_two_cells m result ch key cell rest :
  ColumnData result = VString key :: cell :: rest ->
  metricKVConverter ParseFloat m result ch =
  metricKVConverter ParseFloat m (mkRowResult [] ∅ [VString key; cell]) ch.
Proof.
  intros Hdata.
  rewrite (metricKVConverter_pair _ _ _ _ _ _ _ Hdata).
  rewrite (metricKVConverter_pair _ m (mkRowResult [] ∅ [VString key; cell]) ch
             (VString key) cell [] eq_refl).
  reflexivity.
Qed.




End QueryAndConverters.

(** [SHOW config;] with a value that does not parse, and [rows.Err()]
    set at the end. *)
Lemma queryRows_rows_err_witness :
  queryRows parseDigits sampleConfig (newRowResult ["key"; "value"])
    [Ok [VString "max_client_conn"; VString "abc"]] (Some "connection lost") [] [] =
    Returns ([], [ErrKVValue "config" "max_client_conn" (VString "abc")]
                   ++ [ErrConsumeRows "connection lost"], None).
Proof.
  apply (queryRows_rows_err parseDigits sampleConfig (newRowResult ["key"; "value"])
           [Ok [VString "max_client_conn"; VString "abc"]] [] []).
  reflexivity.
Defined.

(** The sample row of [pools]: four columns, one of them compiled, one
    send. *)
Lemma metricRowConverter_accounts_witness :
  exists ch' errs fatal,
    metricRowConverter parseDigits samplePools samplePoolsRow [] =
      Returns (ch', errs, fatal) /\
    length ch' + length errs =
      length (@nil Metric) + length (compiledColumns samplePools (ColumnNames samplePoolsRow)).
Proof.
  eexists _, _, _. split; [vm_compute; reflexivity|].
  eapply (metricRowConverter_accounts parseDigits samplePools samplePoolsRow []).
  - reflexivity.
  - vm_compute. reflexivity.
Defined.

(** The text cell ["abc"] and a boolean cell. *)
Lemma dbToFloat64_failure_is_NaN_witness :
  (dbToFloat64 parseDigits (VString "abc")).1 = NaN /\
  (dbToFloat64 parseDigits (VBool true)).1 = NaN.
Proof.
  split.
  - apply (dbToFloat64_failure_is_NaN parseDigits (VString "abc")). reflexivity.
  - apply (dbToFloat64_failure_is_NaN parseDigits (VBool true)). reflexivity.
Defined.

(** A row of [config] with a third column. *)
Lemma metricKVConverter_two_cells_witness :
  metricKVConverter parseDigits sampleConfig
    (scannedRow ["key"; "value"; "changeable"]
       [VString "max_client_conn"; VString "100"; VString "yes"]) [] =
  metricKVConverter parseDigits sampleConfig
    (mkRowResult [] ∅ [VString "max_client_conn"; VString "100"]) [].
Proof.
  apply (metricKVConverter_two_cells parseDigits sampleConfig _ []
           "max_client_conn" (VString "100") [VString "yes"]).
  reflexivity.
Defined.


(** Without any column, a row of a namespace with labels makes the
    row converter panic. *)
Example Query_no_column_panics :
  Query parseDigits samplePools []
    (mkDB [] (fun _ _ => Ok (mkRows (Ok []) [Ok []] None))) = Panics.
Proof. vm_compute. reflexivity. Qed.

(** ** More on the metric-map builder *)

Lemma foldl_snoc_fmap {A B} (f : list B -> A -> list B) (g : A -> B) :
  (forall acc x, f acc x = acc ++ [g x]) ->
  forall l acc, foldl f acc l = acc ++ (g <$> l).
Proof.
  intros Hf. induction l as [|a l IH]; intros acc; simpl.
  - rewrite app_nil_r. reflexivity.
  - rewrite IH, Hf, <- app_assoc. reflexivity.
Qed.

Lemma string_app_inv_head (p s1 s2 : string) : p +:+ s1 = p +:+ s2 -> s1 = s2.
Proof. induction p as [|c p IH]; simpl; intros H; [exact H|]. inversion H. auto. Qed.

Lemma NoDup_fmap_eq {A B} (f : A -> B) (l : list A) x y :
  NoDup (f <$> l) -> x ∈ l -> y ∈ l -> f x = f y -> x = y.
Proof.
  induction l as [|a l IH]; intros Hnd Hx Hy Hf; [inversion Hx|].
  rewrite fmap_cons in Hnd. apply NoDup_cons in Hnd as [Hfresh Hnd].
  apply elem_of_cons in Hx as [->|Hx]; apply elem_of_cons in Hy as [->|Hy].
  - reflexivity.
  - exfalso. apply Hfresh. rewrite Hf. apply list_elem_of_fmap_2. exact Hy.
  - exfalso. apply Hfresh. rewrite <- Hf. apply list_elem_of_fmap_2. exact Hx.
  - apply IH; assumption.
Qed.

(** The descriptor-name suffixes of the two schema tables are pairwise
    distinct. *)
Lemma schemaNames_NoDup :
  NoDup ((schemaNames metricRowMaps ++ schemaNames metricKVMaps).*2).
Proof.
  apply (bool_decide_unpack
           (NoDup ((schemaNames metricRowMaps ++ schemaNames metricKVMaps).*2))).
  vm_compute. exact I.
Qed.

Lemma schemaNames_elem table ns mappings columnName columnMapping :
  table !! ns = Some mappings ->
  mappings !! columnName = Some columnMapping ->
  usage columnMapping <> LABEL ->
  (ns, columnName, ns +:+ "_" +:+ exportedName columnName columnMapping)
    ∈ schemaNames table.
Proof.
  intros Hns Hcol Hu. unfold schemaNames.
  apply list_elem_of_bind. exists (ns, mappings).
  split; [|apply elem_of_map_to_list; exact Hns].
  apply list_elem_of_bind. exists (columnName, columnMapping).
  split; [|apply elem_of_map_to_list; exact Hcol].
  rewrite decide_False by exact Hu. left.
Qed.

Section BuilderShape.

Variable goRange : forall V : Type, gmap string V -> list (string * V).

Hypothesis goRange_perm :
  forall (V : Type) (m : gmap string V), goRange V m ≡ₚ map_to_list m.

Lemma makeMetricMaps_fmap metricNamespace :
  makeMetricMaps goRange metricNamespace =
    ((fun x : string * gmap string ColumnMapping =>
        convert goRange metricNamespace x.1 x.2 RowFunc) <$> goRange _ metricRowMaps) ++
    ((fun x : string * gmap string ColumnMapping =>
        convert goRange metricNamespace x.1 x.2 KVFunc) <$> goRange _ metricKVMaps).
Proof.
  unfold makeMetricMaps.
  rewrite (foldl_snoc_fmap _ (fun x : string * gmap string ColumnMapping =>
             convert goRange metricNamespace x.1 x.2 KVFunc))
    by (intros acc [a b]; reflexivity).
  rewrite (foldl_snoc_fmap _ (fun x : string * gmap string ColumnMapping =>
             convert goRange metricNamespace x.1 x.2 RowFunc))
    by (intros acc [a b]; reflexivity).
  reflexivity.
Qed.

(** Where a map of the builder comes from. *)
Lemma makeMetricMaps_origin metricNamespace m :
  m ∈ makeMetricMaps goRange metricNamespace ->
  exists ns mappings,
    m = convert goRange metricNamespace ns mappings (rowFunc m) /\
    match rowFunc m with
    | RowFunc => metricRowMaps !! ns = Some mappings
    | KVFunc => metricKVMaps !! ns = Some mappings
    end.
Proof.
  rewrite makeMetricMaps_fmap. intros Hin.
  apply elem_of_app in Hin as [Hin|Hin];
    apply list_elem_of_fmap in Hin as ([ns mappings] & -> & Hin);
    rewrite goRange_perm in Hin; apply elem_of_map_to_list in Hin;
    exists ns, mappings; split; [reflexivity | exact Hin | reflexivity | exact Hin].
Qed.

(** The entry of a schema column in the compiled map. *)
Lemma convert_entry metricNamespace ns mappings converter column :
  columnMappings (convert goRange metricNamespace ns mappings converter) !! column =
    match mappings !! column with
    | Some columnMapping =>
        convertColumn metricNamespace ns
          (labels (convert goRange metricNamespace ns mappings converter))
          ∅ (column, columnMapping) !! column
    | None => None
    end.
Proof.
  unfold convert. cbn [columnMappings labels].
  destruct (mappings !! column) as [columnMapping|] eqn:Hcol.
  - apply convertColumns_lookup.
    + rewrite goRange_perm. apply NoDup_fst_map_to_list.
    + rewrite goRange_perm. apply elem_of_map_to_list. exact Hcol.
  - rewrite convertColumns_notin; [apply lookup_empty|].
    rewrite goRange_perm. intros Hin.
    apply list_elem_of_fmap in Hin as ([k v] & -> & Hin).
    apply elem_of_map_to_list in Hin. simpl in Hcol. congruence.
Qed.

Lemma convertColumn_entry metricNamespace ns lbls column columnMapping metricMapping :
  convertColumn metricNamespace ns lbls ∅ (column, columnMapping) !! column
    = Some metricMapping ->
  usage columnMapping <> LABEL /\
  fqName (desc metricMapping) =
    metricNamespace +:+ "_" +:+ ns +:+ "_" +:+ exportedName column columnMapping.
Proof.
  unfold convertColumn, exportedName.
  destruct (usage columnMapping) eqn:Hu;
    [rewrite lookup_empty; discriminate | | |];
    rewrite lookup_insert_eq; intros H; inversion H; subst; clear H;
    (split; [discriminate|]);
    destruct (decide (promMetricName columnMapping = "")); reflexivity.
Qed.

(** X14.  The compiled map of a namespace has an entry for a column
    exactly when the schema of the namespace has that column and it is
    not a label: no label and no column outside the schema is ever
    compiled. *)
Theorem convert_domain metricNamespace ns mappings converter column :
  is_Some (columnMappings (convert goRange metricNamespace ns mappings converter)
             !! column) <->
  exists columnMapping,
    mappings !! column = Some columnMapping /\ usage columnMapping <> LABEL.
Proof.
  rewrite convert_entry. split.
  - intros [metricMapping H].
    destruct (mappings !! column) as [columnMapping|]; [|discriminate].
    exists columnMapping. split; [reflexivity|].
    apply convertColumn_entry in H. apply H.
  - intros (columnMapping & -> & Hu). unfold convertColumn.
    destruct (usage columnMapping); [congruence | | |];
      rewrite lookup_insert_eq; eauto.
Qed.

(** X15.  The builder produces exactly one map per namespace of the
    two schema tables and nothing else, and gives each the converter of
    its table: the row converter for the row table, the key-value
    converter for the key-value table. *)
Theorem makeMetricMaps_namespaces metricNamespace :
  namespace <$> makeMetricMaps goRange metricNamespace ≡ₚ
    (map_to_list metricRowMaps).*1 ++ (map_to_list metricKVMaps).*1 /\
  forall m, m ∈ makeMetricMaps goRange metricNamespace ->
    match rowFunc m with
    | RowFunc => is_Some (metricRowMaps !! namespace m)
    | KVFunc => is_Some (metricKVMaps !! namespace m)
    end.
Proof.
  split.
  - rewrite makeMetricMaps_fmap, fmap_app, <- !list_fmap_compose.
    apply Permutation_app.
    + rewrite <- (goRange_perm _ metricRowMaps). reflexivity.
    + rewrite <- (goRange_perm _ metricKVMaps). reflexivity.
  - intros m Hin. destruct (makeMetricMaps_origin _ _ Hin) as (ns & mappings & Hm & Htable).
    assert (Hns : namespace m = ns) by (rewrite Hm; reflexivity).
    rewrite Hns. destruct (rowFunc m); rewrite Htable; eauto.
Qed.

(** X16.  No two compiled columns share a descriptor name: whatever
    the prefix, two entries of the builder's maps with the same
    descriptor name are the same column of the same namespace. *)
Theorem makeMetricMaps_names_distinct metricNamespace m1 m2 column1 column2 mm1 mm2 :
  m1 ∈ makeMetricMaps goRange metricNamespace ->
  m2 ∈ makeMetricMaps goRange metricNamespace ->
  columnMappings m1 !! column1 = Some mm1 ->
  columnMappings m2 !! column2 = Some mm2 ->
  fqName (desc mm1) = fqName (desc mm2) ->
  namespace m1 = namespace m2 /\ column1 = column2.
Proof.
  intros Hin1 Hin2 Hc1 Hc2 Hname.
  assert (Hsuffix : forall m column mm,
    m ∈ makeMetricMaps goRange metricNamespace ->
    columnMappings m !! column = Some mm ->
    exists suffix,
      fqName (desc mm) = metricNamespace +:+ "_" +:+ suffix /\
      (namespace m, column, suffix)
        ∈ schemaNames metricRowMaps ++ schemaNames metricKVMaps).
  { intros m column mm Hin Hc.
    destruct (makeMetricMaps_origin _ _ Hin) as (ns & mappings & Hm & Htable).
    rewrite Hm, convert_entry in Hc.
    destruct (mappings !! column) as [columnMapping|] eqn:Hcol; [|discriminate].
    apply convertColumn_entry in Hc as [Hu Hfq].
    exists (ns +:+ "_" +:+ exportedName column columnMapping).
    split; [exact Hfq|].
    assert (Hns : namespace m = ns) by (rewrite Hm; reflexivity). rewrite Hns.
    apply elem_of_app. destruct (rowFunc m); [left | right];
      eapply schemaNames_elem; eassumption. }
  destruct (Hsuffix _ _ _ Hin1 Hc1) as (s1 & Hfq1 & Hs1).
  destruct (Hsuffix _ _ _ Hin2 Hc2) as (s2 & Hfq2 & Hs2).
  rewrite Hfq1, Hfq2 in Hname.
  apply string_app_inv_head, (string_app_inv_head "_") in Hname.
  pose proof (NoDup_fmap_eq snd _ _ _ schemaNames_NoDup Hs1 Hs2 Hname) as Heq.
  inversion Heq. split; reflexivity.
Qed.

End BuilderShape.

Lemma makeMetricMaps_namespaces_witness :
  namespace <$> makeMetricMaps (fun V => map_to_list) "pgbouncer" ≡ₚ
    (map_to_list metricRowMaps).*1 ++ (map_to_list metricKVMaps).*1 /\
  forall m, m ∈ makeMetricMaps (fun V => map_to_list) "pgbouncer" ->
    match rowFunc m with
    | RowFunc => is_Some (metricRowMaps !! namespace m)
    | KVFunc => is_Some (metricKVMaps !! namespace m)
    end.
Proof.
  exact (makeMetricMaps_namespaces (fun V => map_to_list)
           (fun V m => reflexivity (map_to_list m)) "pgbouncer").
Defined.

(** The column [avg_query] of the namespace [stats]. *)
Lemma convert_domain_witness :
  is_Some (columnMappings sampleStats !! "avg_query") <->
  exists columnMapping,
    statsMappings !! "avg_query" = Some columnMapping /\ usage columnMapping <> LABEL.
Proof.
  exact (convert_domain (fun V => map_to_list)
           (fun V m => reflexivity (map_to_list m))
           "pgbouncer" "stats" statsMappings RowFunc "avg_query").
Defined.

(** The entry of [avg_query] in the compiled map of [stats], compared
    with itself. *)
Lemma makeMetricMaps_names_distinct_witness :
  namespace sampleStats = namespace sampleStats /\ "avg_query" = "avg_query".
Proof.
  assert (Hin : sampleStats ∈ makeMetricMaps (fun V => map_to_list) "pgbouncer").
  { apply (convert_in_makeMetricMaps (fun V => map_to_list)
             (fun V m => reflexivity (map_to_list m)) "pgbouncer" "stats" statsMappings).
    vm_compute. reflexivity. }
  assert (Hentry : exists mm, columnMappings sampleStats !! "avg_query" = Some mm).
  { vm_compute. eexists. reflexivity. }
  destruct Hentry as [mm Hmm].
  exact (makeMetricMaps_names_distinct (fun V => map_to_list)
           (fun V m => reflexivity (map_to_list m))
           "pgbouncer" sampleStats sampleStats "avg_query" "avg_query" mm mm
           Hin Hin Hmm Hmm eq_refl).
Defined.

(** ** Describe *)

Section DescribeProperties.

Variable ParseFloat : string -> option float64.

Lemma MetricDesc_const new :
  Forall isConstMetric new ->
  exists descs, MetricDesc <$> new = ConstDesc <$> descs.
Proof.
  induction 1 as [|x new Hx _ (descs & IH)]; [exists []; reflexivity|].
  destruct x; try contradiction. exists (d :: descs).
  rewrite !fmap_cons, IH. reflexivity.
Qed.

(** X17.  [Describe] is a poll of its own.  Whenever it returns it has
    counted one more scrape, and it has sent the descriptors of
    constant metrics followed by the four health descriptors; when the
    service does not answer the probe, it sends the four health
    descriptors and no descriptor of any namespace. *)
Theorem Describe_polls elapsed e ch :
  (forall e' ch',
     Describe ParseFloat elapsed e ch = Returns (e', ch') ->
     totalScrapes e' = PrimFloat.add (totalScrapes e) 1 /\
     exists descs,
       ch' = ch ++ (ConstDesc <$> descs)
                ++ [DurationDesc; UpDesc; TotalScrapesDesc; ErrorDesc]) /\
  (forall cause,
     respond (db e) (issued (db e)) "SHOW STATS" = Err cause ->
     exists e',
       Describe ParseFloat elapsed e ch =
         Returns (e', ch ++ [DurationDesc; UpDesc; TotalScrapesDesc; ErrorDesc])).
Proof.
  split.
  - intros e' ch' H. unfold Describe, Collect in H.
    apply bind_Returns in H as ([e1 ch1] & H & Hret). inversion Hret; subst. clear Hret.
    apply bind_Returns in H as ([e2 ch2] & Hscrape & Hret). inversion Hret; subst.
    apply scrape_Returns in Hscrape as (Ht & _ & _ & _ & new & -> & Hnew).
    split; [exact Ht|].
    destruct (MetricDesc_const new Hnew) as (descs & Hdescs).
    exists descs. simpl. rewrite fmap_app, Hdescs. reflexivity.
  - intros cause Hprobe. unfold Describe, Collect.
    rewrite (scrape_probe_failed _ _ _ _ _ Hprobe). eexists. reflexivity.
Qed.

End DescribeProperties.

(** [Describe] against a service that does not answer the probe. *)
Lemma Describe_polls_witness :
  exists e',
    Describe parseDigits 0.25 (sampleExporter sampleDown) [] =
      Returns (e', [] ++ [DurationDesc; UpDesc; TotalScrapesDesc; ErrorDesc]).
Proof.
  destruct (Describe_polls parseDigits 0.25 (sampleExporter sampleDown) []) as [_ H].
  exact (H "connection refused" eq_refl).
Defined.

(** [Describe] against the sample service: the descriptors of the two
    observations, then the four health descriptors. *)
Example Describe_sample :
  (Describe parseDigits 0.25 (sampleExporter sampleUp) []) ≫= (fun r => Returns r.2) =
    Returns [ConstDesc (NewDesc "pgbouncer_pools_cl_active" "Client connections"
                          ["name"; "pool_mode"]);
             ConstDesc (NewDesc "pgbouncer_config_max_client_conn"
                          "Maximum number of client connections allowed" []);
             DurationDesc; UpDesc; TotalScrapesDesc; ErrorDesc].
Proof. vm_compute. reflexivity. Qed.

(** ** The channel as a frame, and repeated polls *)

Section Frame.

Variable ParseFloat : string -> option float64.

Lemma columnStep_frame m result labelValues pre errs ch idx columnName :
  columnStep ParseFloat m result labelValues (errs, pre ++ ch) idx columnName =
    st ← columnStep ParseFloat m result labelValues (errs, ch) idx columnName;
    Returns (st.1, pre ++ st.2).
Proof.
  unfold columnStep. destruct (columnMappings m !! columnName); [|reflexivity].
  destruct (index (ColumnData result) idx) as [cell| |]; [|reflexivity|reflexivity].
  cbn [mbind outcome_bind].
  destruct (dbToFloat64 ParseFloat cell) as [val [|]]; simpl;
    rewrite ?app_assoc; reflexivity.
Qed.

Lemma columnLoop_frame m result labelValues pre names : forall i errs ch,
  rangeLoop (columnStep ParseFloat m result labelValues) i names (errs, pre ++ ch) =
    st ← rangeLoop (columnStep ParseFloat m result labelValues) i names (errs, ch);
    Returns (st.1, pre ++ st.2).
Proof.
  induction names as [|name names IH]; intros i errs ch; [reflexivity|].
  cbn [rangeLoop]. rewrite columnStep_frame.
  destruct (columnStep ParseFloat m result labelValues (errs, ch) i name)
    as [[errs1 ch1]| |]; [|reflexivity|reflexivity].
  cbn [mbind outcome_bind fst snd]. apply IH.
Qed.

Lemma callRowFunc_frame m result pre ch :
  callRowFunc ParseFloat m result (pre ++ ch) =
    r ← callRowFunc ParseFloat m result ch; Returns (onto pre r).
Proof.
  unfold callRowFunc. destruct (rowFunc m).
  - unfold metricRowConverter.
    destruct (collectLabels m result) as [labelValues| |]; [|reflexivity|reflexivity].
    cbn [mbind outcome_bind]. rewrite columnLoop_frame.
    assert (Hbind : forall o : outcome (list Error * list Metric),
      (o ≫= fun st => Returns (st.1, pre ++ st.2))
        ≫= (fun st : list Error * chan => Returns (st.2, st.1, @None Error)) =
      (o ≫= fun st : list Error * chan => Returns (st.2, st.1, @None Error))
        ≫= fun r : converted => Returns (onto pre r)).
    { intros [[errs1 ch1]| |]; reflexivity. }
    apply Hbind.
  - destruct (ColumnData result) as [|k [|cell rest]] eqn:Hdata.
    + rewrite !metricKVConverter_short by (rewrite Hdata; simpl; lia). reflexivity.
    + rewrite !metricKVConverter_short by (rewrite Hdata; simpl; lia). reflexivity.
    + rewrite !(metricKVConverter_pair _ _ _ _ _ _ _ Hdata).
      destruct k; try reflexivity.
      destruct (columnMappings m !! v); [|reflexivity].
      destruct (dbToFloat64 ParseFloat cell) as [val [|]]; simpl;
        unfold onto; simpl; rewrite ?app_assoc; reflexivity.
Qed.

Lemma queryRows_frame m pre pending : forall result rowsErr acc ch,
  queryRows ParseFloat m result pending rowsErr acc (pre ++ ch) =
    r ← queryRows ParseFloat m result pending rowsErr acc ch; Returns (onto pre r).
Proof.
  induction pending as [|row pending IH]; intros result rowsErr acc ch.
  - simpl. destruct rowsErr; reflexivity.
  - cbn [queryRows]. destruct (Scan row result) as [result1|cause]; [|reflexivity].
    rewrite callRowFunc_frame.
    destruct (callRowFunc ParseFloat m result1 ch) as [[[ch1 n] e]| |];
      [|reflexivity|reflexivity].
    cbn [mbind outcome_bind onto fst snd]. destruct e as [e|]; [reflexivity|].
    apply IH.
Qed.

Lemma Query_frame m pre ch db :
  Query ParseFloat m (pre ++ ch) db =
    r ← Query ParseFloat m ch db; Returns (r.1, onto pre r.2).
Proof.
  unfold Query, DBQuery.
  destruct (respond db (issued db) ("SHOW " +:+ namespace m +:+ ";")) as [rows|cause];
    [|reflexivity].
  destruct (Columns rows) as [names|cause]; [|reflexivity].
  rewrite queryRows_frame.
  destruct (queryRows ParseFloat m (newRowResult names) (fetched rows) (RowsErr rows) [] ch)
    as [r| |]; reflexivity.
Qed.

Lemma scrapeMappings_frame pre mappings : forall e ch,
  scrapeMappings ParseFloat mappings e (pre ++ ch) =
    r ← scrapeMappings ParseFloat mappings e ch; Returns (r.1, pre ++ r.2).
Proof.
  induction mappings as [|mapping mappings IH]; intros e ch; [reflexivity|].
  cbn [scrapeMappings]. rewrite Query_frame.
  destruct (Query ParseFloat mapping ch (db e)) as [[db1 [[ch1 nonfatal] err]]| |];
    [|reflexivity|reflexivity].
  cbn [mbind outcome_bind onto fst snd]. destruct err as [err|]; [reflexivity|].
  apply IH.
Qed.

(** X18.  What a poll sends does not depend on what is already on the
    channel: a poll on a channel that holds [ch] does what the same
    poll does on an empty channel, with [ch] in front. *)
Theorem Collect_frame elapsed e ch :
  Collect ParseFloat elapsed e ch =
    r ← Collect ParseFloat elapsed e []; Returns (r.1, ch ++ r.2).
Proof.
  unfold Collect, scrape.
  destruct (DBQuery (db (setTotalScrapes _ (setError 0 e))) "SHOW STATS") as [db1 rows].
  destruct rows as [probe|cause].
  - rewrite <- (app_nil_r ch) at 1. rewrite scrapeMappings_frame.
    destruct (scrapeMappings ParseFloat _ _ []) as [[e1 ch1]| |];
      [|reflexivity|reflexivity].
    cbn [mbind outcome_bind fst snd]. rewrite app_assoc. reflexivity.
  - cbn [mbind outcome_bind fst snd]. rewrite app_nil_l. reflexivity.
Qed.

(** Against a steady service, [Query] does the same from any two
    connections to it. *)
Lemma Query_steady m ch db1 db2 :
  respond db1 = respond db2 -> steady (respond db1) ->
  match Query ParseFloat m ch db1, Query ParseFloat m ch db2 with
  | Returns (db1', r1), Returns (db2', r2) => respond db1' = respond db2' /\ r1 = r2
  | Panics, Panics | Exits, Exits => True
  | _, _ => False
  end.
Proof.
  intros Hresp Hsteady. unfold Query, DBQuery. rewrite <- Hresp.
  rewrite (Hsteady (issued db2) (issued db1)).
  destruct (respond db1 (issued db1) ("SHOW " +:+ namespace m +:+ ";")) as [rows|cause];
    [|split; reflexivity].
  destruct (Columns rows) as [names|cause]; [|split; reflexivity].
  destruct (queryRows ParseFloat m (newRowResult names) (fetched rows) (RowsErr rows) [] ch)
    as [r| |]; simpl; [split; reflexivity | exact I | exact I].
Qed.

Lemma scrapeMappings_steady mappings : forall e1 e2 ch,
  sameGauges e1 e2 -> steady (respond (db e1)) ->
  match scrapeMappings ParseFloat mappings e1 ch,
        scrapeMappings ParseFloat mappings e2 ch with
  | Returns (e1', ch1), Returns (e2', ch2) => sameGauges e1' e2' /\ ch1 = ch2
  | Panics, Panics | Exits, Exits => True
  | _, _ => False
  end.
Proof.
  induction mappings as [|mapping mappings IH]; intros e1 e2 ch Hsame Hsteady.
  - simpl. split; [exact Hsame | reflexivity].
  - cbn [scrapeMappings]. destruct Hsame as (Hu & He & Hm & Hr).
    pose proof (Query_steady mapping ch (db e1) (db e2) Hr Hsteady) as HQ.
    destruct (Query ParseFloat mapping ch (db e1)) as [[db1 r1]| |] eqn:HQ1;
      destruct (Query ParseFloat mapping ch (db e2)) as [[db2 r2]| |];
      try contradiction; try exact I.
    destruct HQ as [Hr' <-]. destruct r1 as [[ch1 nonfatal] err].
    apply Query_Returns in HQ1 as [Hdb1 _].
    cbn [mbind outcome_bind]. destruct err as [err|]; [exact I|].
    apply IH.
    + repeat split; simpl; congruence.
    + simpl. rewrite Hdb1. exact Hsteady.
Qed.

(** X19.  Against a steady service a poll can be repeated: the next
    poll, on the same channel and taking the same time, sends the same
    metrics and leaves the same [up], [error] and [duration]. *)
Theorem scrape_repeats elapsed e ch e' ch' :
  steady (respond (db e)) ->
  scrape ParseFloat elapsed e ch = Returns (e', ch') ->
  exists e'',
    scrape ParseFloat elapsed e' ch = Returns (e'', ch') /\
    up e'' = up e' /\ error e'' = error e' /\ duration e'' = duration e'.
Proof.
  intros Hsteady H.
  pose proof (scrape_Returns ParseFloat _ _ _ _ _ H) as (_ & _ & Hm & Hr & _).
  assert (Hprobe' : respond (db e') (issued (db e')) "SHOW STATS" =
                    respond (db e) (issued (db e)) "SHOW STATS").
  { rewrite Hr. apply Hsteady. }
  destruct (respond (db e) (issued (db e)) "SHOW STATS") as [probe|cause] eqn:Hprobe.
  - rewrite (scrape_probe_ok _ _ _ _ _ Hprobe) in H.
    rewrite (scrape_probe_ok _ _ _ _ _ Hprobe'), Hm.
    match goal with
    | H : scrapeMappings _ _ ?E1 _ ≫= _ = _ |- context [scrapeMappings _ _ ?E2 _] =>
        pose proof (scrapeMappings_steady (metricMap e) E1 E2 ch) as Hrel
    end.
    assert (Hrel' := Hrel ltac:(repeat split; simpl; congruence) Hsteady).
    clear Hrel.
    apply bind_Returns in H as ([e1 ch1] & Hloop & H). inversion H; subst. clear H.
    rewrite Hloop in Hrel'.
    match type of Hrel' with
    | match ?o with _ => _ end => destruct o as [[e2 ch2]| |]
    end; [|contradiction|contradiction].
    destruct Hrel' as [(Hu & He & _) <-].
    eexists. split; [reflexivity|]. simpl. repeat split; congruence.
  - rewrite (scrape_probe_failed _ _ _ _ _ Hprobe) in H. inversion H; subst. clear H.
    rewrite (scrape_probe_failed _ _ _ _ _ Hprobe').
    eexists. split; [reflexivity|]. repeat split.
Qed.

End Frame.

(** Two polls of the sample exporter against the sample service. *)
Lemma scrape_repeats_witness :
  exists e' ch' e'',
    scrape parseDigits 0.25 (sampleExporter sampleUp) [] = Returns (e', ch') /\
    scrape parseDigits 0.25 e' [] = Returns (e'', ch') /\
    up e'' = up e' /\ error e'' = error e' /\ duration e'' = duration e'.
Proof.
  assert (H : exists r, scrape parseDigits 0.25 (sampleExporter sampleUp) [] = Returns r).
  { vm_compute. eexists. reflexivity. }
  destruct H as [[e' ch'] H].
  destruct (scrape_repeats parseDigits 0.25 (sampleExporter sampleUp) [] e' ch')
    as (e'' & H2 & Hrest).
  - intros earlier earlier' query. reflexivity.
  - exact H.
  - exists e', ch', e''. split; [exact H|]. split; [exact H2 | exact Hrest].
Defined.
